(** * ScentSearch: the nearest-neighbour retrieval of [app/retrieval/search.py]
    (with, at the end of the definitions, the log parser of
    [app/data/convert_to_csv.py])

    The class [ScentSearch] keeps a list of scent descriptions, their
    sentence embeddings and a faiss [IndexFlatL2] over them; [add_scents]
    (re)builds the three fields and [search] looks a query up.

    Two collaborators are libraries, not code of the repository, and are
    modelled from their behaviour:
    - [SentenceTransformer.encode], the text encoder, is a variable of the
      development (a fixed dimension and one embedding per text);
    - [faiss.IndexFlatL2] with the Python wrapper's argument checks, the
      sequential scan and the bounded heap that keeps the [k] best hits.
      Two parts of faiss are parameters, the class [Faiss.library]: the
      kernel that computes a squared distance in float32 arithmetic, whose
      rounding depends on the order in which the build of the library sums,
      and the lookup of 100 results or more, where the wrapper's allocation
      of the result arrays can be refused and another result handler is
      used.

    Numbers: a [float32] is kept as its 32 bits.  No arithmetic of the
    class is done on floats: the kernel alone computes, and the heap only
    compares. *)

From Stdlib Require Import String Ascii.
From Stdlib Require Import List ZArith Lia Bool.
From Stdlib Require Import Sorting.Sorted Sorting.Permutation DecimalString.
From Stdlib Require Import Floats.SpecFloat.
Import ListNotations.
Local Open Scope Z_scope.

(** ** Python values *)

(** The exceptions a call can end with.  The first five are the built-in
    exceptions that the statements of [search.py] and the wrappers they
    call raise.  The last four are the error kinds that the specification
    names; no statement of the module constructs one of them. *)
Inductive exception : Type :=
| AttributeError
| AssertionError
| IndexError
| ValueError
| MemoryError
| EmptyCorpusError
| DimensionMismatchError
| InvalidArgumentError
| EncoderError.

(** A [float32] is its 32 bits read as an unsigned integer: the sign, eight
    bits of exponent, 23 bits of fraction.  Among the floats whose sign bit
    is clear, the order of the integers is the order of the values, the
    infinity [0x7F800000] comes after every finite float and every NaN
    after the infinity; [0] is the float 0.0. *)
Abbreviation float32 := Z (only parsing).

(** [FLT_MAX], 3.4028235e38, the largest finite float: [0x7F7FFFFF]. *)
Definition FLT_MAX : float32 := 2 ^ 31 - 2 ^ 23 - 1.

(** The floats that are numbers, not an infinity or a NaN: the exponent
    bits are not all set. *)
Definition f32_finite (b : float32) : Prop :=
  Z.land (Z.shiftr b 23) 255 <> 255.

(** [l[i]] on a Python sequence: a negative [i] counts from the end, and an
    index outside [-len(l) .. len(l) - 1] raises [IndexError]. *)
Definition py_getitem {A : Type} (l : list A) (i : Z) : exception + A :=
  let n := Z.of_nat (length l) in
  let j := if i <? 0 then i + n else i in
  if (j <? 0) || (n <=? j) then inl IndexError
  else match nth_error l (Z.to_nat j) with
       | Some a => inr a
       | None => inl IndexError
       end.

(** A numpy array of [float32]: its shape and, for the arrays met here
    (one- or two-dimensional), its rows. *)
Record ndarray : Type := mk_ndarray {
  shape : list nat;
  rows : list (list float32)
}.

(** [str(n)] and [str(shape)] as [print] shows them. *)
Definition str_nat (n : nat) : string := NilZero.string_of_uint (Nat.to_uint n).

Fixpoint join_comma (l : list string) : string :=
  match l with
  | [] => EmptyString
  | [s] => s
  | s :: t => (s ++ ", " ++ join_comma t)%string
  end.

Definition str_shape (sh : list nat) : string :=
  match sh with
  | [n] => ("(" ++ str_nat n ++ ",)")%string
  | _ => ("(" ++ join_comma (map str_nat sh) ++ ")")%string
  end.

(** ** faiss.IndexFlatL2 *)

Module Faiss.

(** A flat index: the dimension [d] it was created with and the stored
    vectors, in insertion order; the label of a vector is its position. *)
Record IndexFlatL2 : Type := mk_index {
  index_d : nat;
  index_xb : list (list float32)
}.

Definition ntotal (ix : IndexFlatL2) : nat := length (index_xb ix).

(** [faiss.IndexFlatL2(d)] *)
Definition new (d : nat) : IndexFlatL2 := {| index_d := d; index_xb := [] |}.

(** [index.add(x)]: [n, d = x.shape], [assert d == self.d], then the rows
    are appended. *)
Definition add (ix : IndexFlatL2) (x : ndarray) : exception + IndexFlatL2 :=
  match shape x with
  | [_; dx] =>
      if Nat.eqb dx (index_d ix)
      then inr {| index_d := index_d ix; index_xb := index_xb ix ++ rows x |}
      else inl AssertionError
  | _ => inl ValueError
  end.

(** What is taken from the library as it is built and run:
    - [L2sqr_kernel x y], the bits of the float32 that the kernel
      [fvec_L2sqr] computes for two vectors, the sum of the squares of the
      differences of their components.  A sum of squares has its sign bit
      clear or is a NaN: the type of the bits is [N], and the kernel is
      understood never to give the bits of a negative float;
    - [search_many ix x k], the outcome of [index.search(x, k)] when [k] is
      [distance_compute_min_k_reservoir] or more: the result arrays, then
      collected by the reservoir of faiss, or the [ValueError] or
      [MemoryError] of the wrapper that could not allocate arrays of [k]
      columns. *)
Class library : Type := {
  L2sqr_kernel : list float32 -> list float32 -> N;
  search_many : IndexFlatL2 -> ndarray -> Z
                -> exception + (list (list float32) * list (list Z))
}.

(** The number of results from which faiss leaves the heap for the
    reservoir. *)
Abbreviation distance_compute_min_k_reservoir := 100 (only parsing).

(** A hit is a distance and a label.  The result handler of a query for
    fewer than [distance_compute_min_k_reservoir] results is a max-heap of
    exactly [k] hits ordered by [cmp2], which compares the distances and
    breaks ties on the labels.  The heap is represented by its content in
    ascending order, the form [heap_reorder] leaves it in; its top, the
    largest hit, is then the last element.  The distances in a heap are
    [FLT_MAX] or have passed under a threshold: they are finite with a
    clear sign bit, and [>] and [==] on them are those of the integers. *)
Definition hit : Type := (float32 * Z)%type.

Definition cmp2 (a b : hit) : bool :=
  (fst a >? fst b) || ((fst a =? fst b) && (snd a >? snd b)).

(** The neutral hit a heap is initialised with: [FLT_MAX] and label -1. *)
Definition neutral : hit := (FLT_MAX, -1).

Definition heap_heapify (k : nat) : list hit := repeat neutral k.

Fixpoint heap_push (e : hit) (h : list hit) : list hit :=
  match h with
  | [] => [e]
  | x :: t => if cmp2 x e then e :: x :: t else x :: heap_push e t
  end.

Definition heap_top (h : list hit) : hit := last h neutral.

Definition heap_replace_top (e : hit) (h : list hit) : list hit :=
  heap_push e (removelast h).

(** [add_result]: a hit enters the heap only when its distance is strictly
    below the threshold, the distance at the top.  The threshold is at most
    [FLT_MAX], so an infinite distance or a NaN, whose bits are above those
    of [FLT_MAX], does not enter: [threshold > dis] is false for it. *)
Definition add_result (h : list hit) (dis : float32) (idx : Z) : list hit :=
  if fst (heap_top h) >? dis then heap_replace_top (dis, idx) h else h.

Section Library.

Context {lib : library}.

(** [fvec_L2sqr]: the squared Euclidean distance as the kernel computes it. *)
Definition fvec_L2sqr (x y : list float32) : float32 :=
  Z.of_N (L2sqr_kernel x y).

(** [exhaustive_L2sqr_seq] for one query vector: every stored vector is
    compared, in label order starting at [j]. *)
Fixpoint exhaustive_L2sqr_seq (x : list float32) (ys : list (list float32))
         (j : Z) (h : list hit) : list hit :=
  match ys with
  | [] => h
  | y :: ys' => exhaustive_L2sqr_seq x ys' (j + 1) (add_result h (fvec_L2sqr x y) j)
  end.

Definition knn (ix : IndexFlatL2) (k : Z) (x : list float32) : list hit :=
  exhaustive_L2sqr_seq x (index_xb ix) 0 (heap_heapify (Z.to_nat k)).

(** [index.search(x, k)]: [n, d = x.shape], [assert d == self.d],
    [assert k > 0], then the arrays [D] and [I] of [k] columns are
    allocated and filled; the result is the pair [(D, I)], one row of [k]
    distances and one row of [k] labels per query. *)
Definition search (ix : IndexFlatL2) (x : ndarray) (k : Z)
  : exception + (list (list float32) * list (list Z)) :=
  match shape x with
  | [_; dx] =>
      if negb (Nat.eqb dx (index_d ix)) then inl AssertionError
      else if negb (k >? 0) then inl AssertionError
      else if distance_compute_min_k_reservoir <=? k then search_many ix x k
      else let res := map (knn ix k) (rows x) in
           inr (map (map fst) res, map (map snd) res)
  | _ => inl ValueError
  end.

End Library.

End Faiss.

(** ** The object and its world *)

Record ScentSearch : Type := mk_ScentSearch {
  scent_descriptions : list string;
  scent_vectors : option ndarray;
  index : option Faiss.IndexFlatL2
}.

(** What a method call can touch: the object and the standard output. *)
Record world : Type := mk_world {
  self : ScentSearch;
  stdout : list string
}.

(** A method body: it ends with a value or an exception, and in both cases
    with the world as the statements executed so far left it. *)
Definition M (A : Type) : Type := world -> (exception + A) * world.

Definition ret {A} (a : A) : M A := fun w => (inr a, w).

Definition raise {A} (e : exception) : M A := fun w => (inl e, w).

Definition bind {A B} (m : M A) (f : A -> M B) : M B :=
  fun w => match m w with
           | (inr a, w') => f a w'
           | (inl e, w') => (inl e, w')
           end.

Definition lift {A} (r : exception + A) : M A :=
  match r with
  | inr a => ret a
  | inl e => raise e
  end.

Declare Scope py_scope.
Delimit Scope py_scope with py.
Notation "x <- m ;; f" := (bind m (fun x => f))
  (at level 61, m at next level, right associativity) : py_scope.
Notation "m ;; f" := (bind m (fun _ => f))
  (at level 61, right associativity) : py_scope.
Local Open Scope py_scope.

Definition get_self : M ScentSearch := fun w => (inr (self w), w).

Definition set_scent_descriptions (v : list string) : M unit :=
  fun w => (inr tt,
            {| self := {| scent_descriptions := v;
                          scent_vectors := scent_vectors (self w);
                          index := index (self w) |};
               stdout := stdout w |}).

Definition set_scent_vectors (v : option ndarray) : M unit :=
  fun w => (inr tt,
            {| self := {| scent_descriptions := scent_descriptions (self w);
                          scent_vectors := v;
                          index := index (self w) |};
               stdout := stdout w |}).

Definition set_index (v : option Faiss.IndexFlatL2) : M unit :=
  fun w => (inr tt,
            {| self := {| scent_descriptions := scent_descriptions (self w);
                          scent_vectors := scent_vectors (self w);
                          index := v |};
               stdout := stdout w |}).

Definition print (line : string) : M unit :=
  fun w => (inr tt, {| self := self w; stdout := stdout w ++ [line] |}).

(** [obj.attr] on an attribute that may hold [None]. *)
Definition attr_of {A} (o : option A) : M A :=
  match o with
  | Some a => ret a
  | None => raise AttributeError
  end.

(** ** The class *)

Section Model.

Context {faiss : Faiss.library}.

(** [self.model]: the sentence transformer.  [encode] returns one vector of
    [model_dim] components per sentence, the same vector for the same
    sentence.  The encoder is taken to return on every list of strings: the
    module has no statement that makes it raise and none that would catch
    its exception, and the facts below are about the calls in which it
    returns. *)
Variable model_dim : nat.
Variable model_embed : string -> nat -> float32.

Definition embedding (s : string) : list float32 :=
  map (model_embed s) (seq 0 model_dim).

(** [self.model.encode(sentences)]: an array of shape [(n, model_dim)]; for
    an empty list, the array that [np.asarray([])] makes, of shape [(0,)]. *)
Definition model_encode (sentences : list string) : ndarray :=
  match sentences with
  | [] => {| shape := [0%nat]; rows := [] |}
  | _ => {| shape := [length sentences; model_dim];
            rows := map embedding sentences |}
  end.

(** [ScentSearch(model_name)] *)
Definition init (model_name : string) : world :=
  {| self := {| scent_descriptions := []; scent_vectors := None; index := None |};
     stdout := [("Initialized ScentSearch with model: " ++ model_name)%string] |}.

Definition add_scents (descriptions : list string) : M unit :=
  set_scent_descriptions descriptions ;;
  set_scent_vectors (Some (model_encode descriptions)) ;;
  o <- get_self ;;
  vectors <- attr_of (scent_vectors o) ;;
  dimension <- lift (py_getitem (shape vectors) 1) ;;
  set_index (Some (Faiss.new dimension)) ;;
  o <- get_self ;;
  ix <- attr_of (index o) ;;
  ix' <- lift (Faiss.add ix vectors) ;;
  set_index (Some ix') ;;
  print ("Added " ++ str_nat (length descriptions) ++ " scents to index")%string ;;
  o <- get_self ;;
  vectors <- attr_of (scent_vectors o) ;;
  print ("Vector shape: " ++ str_shape (shape vectors))%string.

(** The loop of [search]: for each [i] of [range(len(indices[0]))], the
    result [(self.scent_descriptions[indices[0][i]], distances[0][i])] is
    appended. *)
Fixpoint format_results (range : list nat)
         (distances : list (list float32)) (indices : list (list Z))
         (results : list (string * float32)) : M (list (string * float32)) :=
  match range with
  | [] => ret results
  | i :: range' =>
      row <- lift (py_getitem indices 0) ;;
      idx <- lift (py_getitem row (Z.of_nat i)) ;;
      drow <- lift (py_getitem distances 0) ;;
      distance <- lift (py_getitem drow (Z.of_nat i)) ;;
      o <- get_self ;;
      s <- lift (py_getitem (scent_descriptions o) idx) ;;
      format_results range' distances indices (results ++ [(s, distance)])
  end.

Definition search (query : string) (k : Z) : M (list (string * float32)) :=
  let query_vector := model_encode [query] in
  o <- get_self ;;
  ix <- attr_of (index o) ;;
  DI <- lift (Faiss.search ix query_vector k) ;;
  let distances := fst DI in
  let indices := snd DI in
  row <- lift (py_getitem indices 0) ;;
  format_results (seq 0 (length row)) distances indices [].

End Model.

(** ** The notions of the specification *)

Section Readings.

Context {faiss : Faiss.library}.
Variable model_dim : nat.
Variable model_embed : string -> nat -> float32.

(** The world after the call [add_scents(descriptions)] made in [w]. *)
Definition after_add_scents (descriptions : list string) (w : world) : world :=
  snd (add_scents model_dim model_embed descriptions w).

(** The squared distance from the query text to a description. *)
Definition distance_to (query s : string) : float32 :=
  Faiss.fvec_L2sqr (embedding model_dim model_embed query)
                   (embedding model_dim model_embed s).

(** Every item of the corpus with its distance to the query and its
    insertion id. *)
Definition corpus_hits (query : string) (D : list string) : list Faiss.hit :=
  map (fun i => (distance_to query (nth i D EmptyString), Z.of_nat i))
      (seq 0 (length D)).

(** No squared distance, as the kernel computes it, reaches [FLT_MAX], the
    threshold a heap starts with: every distance is a finite float below
    [FLT_MAX], and every item of the corpus can enter the heap. *)
Definition no_overflow (query : string) (D : list string) : Prop :=
  Forall (fun s => distance_to query s < FLT_MAX) D.

(** The world after a run of queries, each a text and a [k]. *)
Definition after_searches (queries : list (string * Z)) (w : world) : world :=
  fold_left (fun w' qk => snd (search model_dim model_embed (fst qk) (snd qk) w'))
            queries w.

End Readings.

(** Ascending by distance, ties by ascending id. *)
Definition hit_le (a b : Faiss.hit) : Prop :=
  fst a < fst b \/ (fst a = fst b /\ snd a <= snd b).

(** [rs] is the ranking of the corpus [D] cut after [k] items: the items
    sorted by [hit_le], each with its description and its distance, the
    item of rank [i] at position [i]. *)
Definition ranked_results (hits : list Faiss.hit) (D : list string) (k : Z)
           (rs : list (string * float32)) : Prop :=
  exists ranking : list Faiss.hit,
    Permutation ranking hits /\
    StronglySorted hit_le ranking /\
    rs = map (fun h => (nth (Z.to_nat (snd h)) D EmptyString, fst h))
             (firstn (Z.to_nat k) ranking).

(** A label is usable on a list of [n] descriptions when it is a position
    or the -1 that faiss pads with. *)
Definition label_ok (n : nat) (l : Z) : Prop := l = -1 \/ 0 <= l < Z.of_nat n.

(** The hits of a scan in the order the scan meets them: the stored vectors
    [ys] with their distances to [x] and the labels [j], [j + 1], ... *)
Fixpoint scan_hits {lib : Faiss.library}
         (x : list float32) (ys : list (list float32)) (j : Z)
  : list Faiss.hit :=
  match ys with
  | [] => []
  | y :: ys' => (Faiss.fvec_L2sqr x y, j) :: scan_hits x ys' (j + 1)
  end.

(** Pushing hits one after the other, without a bound on the size. *)
Definition push_all (es h : list Faiss.hit) : list Faiss.hit :=
  fold_left (fun acc e => Faiss.heap_push e acc) es h.

(** The result that [search] builds from a hit: the description its label
    selects, and its distance. *)
Definition result_of_hit (descriptions : list string) (h : Faiss.hit)
  : string * float32 :=
  (match py_getitem descriptions (snd h) with
   | inr s => s
   | inl _ => EmptyString
   end, fst h).

(** ** A library and encoders to run the class on *)

(** The float of 32 bits, and the bits of a float (of a NaN, those of the
    quiet NaN), in the IEEE 754 specification of the standard library. *)
Definition f32_decode (b : float32) : spec_float :=
  let s := Z.testbit b 31 in
  let e := Z.land (Z.shiftr b 23) 255 in
  let f := Z.land b (2 ^ 23 - 1) in
  if e =? 255 then (if f =? 0 then S754_infinity s else S754_nan)
  else if e =? 0 then
    match f with
    | Zpos m => S754_finite s m (-149)
    | _ => S754_zero s
    end
  else S754_finite s (Z.to_pos (f + 2 ^ 23)) (e - 150).

Definition f32_encode (x : spec_float) : float32 :=
  match x with
  | S754_zero s => if s then 2 ^ 31 else 0
  | S754_infinity s => (if s then 2 ^ 31 else 0) + 255 * 2 ^ 23
  | S754_nan => 255 * 2 ^ 23 + 2 ^ 22
  | S754_finite s m e => (if s then 2 ^ 31 else 0) + (e + 149) * 2 ^ 23 + Zpos m
  end.

(** The bits of the float nearest to an integer. *)
Definition f32_of_Z (n : Z) : float32 :=
  f32_encode (binary_normalize 24 128 n 0 false).

(** The kernel that sums in the order of the components, every operation
    rounded to a float32. *)
Definition ieee_L2sqr (x y : list float32) : spec_float :=
  fold_left (fun res ab =>
               let tmp := SFsub 24 128 (f32_decode (fst ab)) (f32_decode (snd ab)) in
               SFadd 24 128 res (SFmul 24 128 tmp tmp))
            (combine x y) (S754_zero false).

(** A library with this kernel, on a machine that refuses the arrays of
    100 columns or more. *)
Definition ieee_faiss : Faiss.library :=
  {| Faiss.L2sqr_kernel := fun x y => Z.to_N (f32_encode (ieee_L2sqr x y));
     Faiss.search_many := fun _ _ _ => inl MemoryError |}.

#[local] Existing Instance ieee_faiss.

(** Small encoders: in the first the one component of a text is the float
    whose bits are the length of the text, in the second the float that is
    its length.  In the third the text ["far"] lies at 2^64, beyond the
    range of a [float32] square, and the fourth gives every text an
    infinite component. *)
Definition embed_length (s : string) (_ : nat) : float32 :=
  Z.of_nat (String.length s).

Definition embed_float (s : string) (_ : nat) : float32 :=
  f32_of_Z (Z.of_nat (String.length s)).

Definition embed_far (s : string) (_ : nat) : float32 :=
  if String.eqb s "far" then f32_of_Z (2 ^ 64) else 0.

Definition embed_inf (s : string) (_ : nat) : float32 := 255 * 2 ^ 23.

(** The corpus and the model name of the module's example run. *)
Definition scents : list string :=
  ["lavender floral soft soothing";
   "lemongrass fresh grassy lemon herbal";
   "orange fresh citrus tangy sweet";
   "raspberry berry earthy herbal fresh";
   "garlic pungent wasabi spicy"]%string.

Definition default_model_name : string := "all-MiniLM-L6-v2".

(** ** Runs of calls and the example run *)

(** A call of one of the two methods. *)
Inductive call : Type :=
| call_add_scents (descriptions : list string)
| call_search (query : string) (k : Z).

(** The argument of the last [add_scents] of a run of calls, and the last
    such argument that was not empty; [dflt] when there is none. *)
Fixpoint last_added (calls : list call) (dflt : list string) : list string :=
  match calls with
  | [] => dflt
  | call_add_scents D :: calls' => last_added calls' D
  | call_search _ _ :: calls' => last_added calls' dflt
  end.

Fixpoint last_indexed (calls : list call) (dflt : option (list string))
  : option (list string) :=
  match calls with
  | [] => dflt
  | call_add_scents [] :: calls' => last_indexed calls' dflt
  | call_add_scents D :: calls' => last_indexed calls' (Some D)
  | call_search _ _ :: calls' => last_indexed calls' dflt
  end.

Section Runs.

Context {faiss : Faiss.library}.
Variable model_dim : nat.
Variable model_embed : string -> nat -> float32.

(** The world after a call, whether it returned or raised, and after a run
    of calls. *)
Definition after_call (c : call) (w : world) : world :=
  match c with
  | call_add_scents D => snd (add_scents model_dim model_embed D w)
  | call_search query k => snd (search model_dim model_embed query k w)
  end.

Definition after_calls (calls : list call) (w : world) : world :=
  fold_left (fun w' c => after_call c w') calls w.

(** The index that [add_scents] builds for a corpus. *)
Definition index_of (D : list string) : Faiss.IndexFlatL2 :=
  {| Faiss.index_d := model_dim;
     Faiss.index_xb := map (embedding model_dim model_embed) D |}.

(** The script under [if __name__ == "__main__"]: a fresh object, the five
    scents, the query ['garlic'] with [k = 2], and one printed line per
    result.  [format_4f] stands for the [.4f] format of a distance. *)
Variable format_4f : float32 -> string.

Fixpoint print_results (i : nat) (results : list (string * float32)) : M unit :=
  match results with
  | [] => ret tt
  | (scent, distance) :: results' =>
      print (str_nat (i + 1) ++ ". " ++ scent ++ " (distance: "
             ++ format_4f distance ++ ")")%string ;;
      print_results (S i) results'
  end.

Definition main : (exception + unit) * world :=
  (add_scents model_dim model_embed scents ;;
   results <- search model_dim model_embed "garlic" 2 ;;
   print (String (ascii_of_nat 10) "Search query: 'garlic'") ;;
   print "Results:" ;;
   print_results 0 results)
    (init default_model_name).

End Runs.

(** ** Sensor logs: [parse_sensor_data] of [app/data/convert_to_csv.py]

    The function reads a text file and takes it three lines at a time: a gas
    line, a temperature line and a humidity line.  The library functions it
    calls are variables: [float], [str.strip] and [re.search] restricted to
    what the function uses of a match, its first group. *)

Section ConvertToCsv.

Variable float : Type.

(** [float(s)], [None] when it raises [ValueError]. *)
Variable py_float : string -> option float.

(** [s.strip()] *)
Variable py_strip : string -> string.

(** [re.search(pattern, s)]: [None], or the text of group 1 of the match. *)
Variable re_search : string -> string -> option string.

(** The dictionary appended for a group of three lines. *)
Record reading : Type := mk_reading {
  gas_resistance : float;
  temperature : float;
  humidity : float
}.

Definition gas_pattern : string := "Gas Resistance:\s*([\d\.]+)".
Definition temp_pattern : string := "Temperature:\s*([\d\.]+)".
Definition humidity_pattern : string := "Humidity:\s*([\d\.]+)".

(** [str(ve)] for the [ValueError] of [float(s)]. *)
Definition value_error (s : string) : string :=
  ("could not convert string to float: '" ++ s ++ "'")%string.

(** The three conversions of the inner [try], in their order: the first
    that fails ends it with its message. *)
Definition convert (g t h : string) : string + reading :=
  match py_float g with
  | None => inl (value_error g)
  | Some gas =>
      match py_float t with
      | None => inl (value_error t)
      | Some temp =>
          match py_float h with
          | None => inl (value_error h)
          | Some hum => inr {| gas_resistance := gas;
                               temperature := temp;
                               humidity := hum |}
          end
      end
  end.

(** [lines[i]] for an index counted from 0; [None] stands for the
    [IndexError] of an index past the end. *)
Definition line_at (lines : list string) (i : nat) : option string :=
  match py_getitem lines (Z.of_nat i) with
  | inr l => Some l
  | inl _ => None
  end.

(** The [while] loop, started at [i] with the readings and the printed
    lines so far.  It ends with the readings, or with the exception that
    leaves the loop for the outer handler, and in both cases with the lines
    printed.  [fuel] bounds the number of tests of the loop condition. *)
Fixpoint parse_loop (fuel : nat) (lines : list string) (i : nat)
         (readings : list reading) (out : list string)
  : option ((exception + list reading) * list string) :=
  match fuel with
  | O => None
  | S fuel' =>
      if Z.of_nat i <? Z.of_nat (length lines) - 2 then
        match line_at lines i, line_at lines (i + 1), line_at lines (i + 2) with
        | Some l0, Some l1, Some l2 =>
            let gas_line := py_strip l0 in
            let temp_line := py_strip l1 in
            let humidity_line := py_strip l2 in
            let gas_match := re_search gas_pattern gas_line in
            let temp_match := re_search temp_pattern temp_line in
            let humidity_match := re_search humidity_pattern humidity_line in
            match gas_match, temp_match, humidity_match with
            | Some g, Some t, Some h =>
                match convert g t h with
                | inr r =>
                    parse_loop fuel' lines (i + 3) (readings ++ [r]) out
                | inl ve =>
                    parse_loop fuel' lines (i + 3) readings
                      (out ++ [("Error converting values: " ++ ve)%string])
                end
            | _, _, _ =>
                parse_loop fuel' lines (i + 3) readings
                  (out ++ [("Failed to match pattern at line " ++ str_nat i)%string])
            end
        | _, _, _ => Some (inl IndexError, out)
        end
      else Some (inr readings, out)
  end.

(** [parse_sensor_data(file_path)], given what reading the file gives: the
    message of the exception that opening or reading raised, or the lines.
    The result is the returned list and the lines printed; [None] only if
    the fuel of the loop, one more than the number of lines, ran out. *)
Definition parse_sensor_data (file_path : string) (file : string + list string)
  : option (list reading * list string) :=
  match file with
  | inl message =>
      Some ([], [("Error processing " ++ file_path ++ ": " ++ message)%string])
  | inr lines =>
      match parse_loop (S (length lines)) lines 0 [] [] with
      | None => None
      | Some (inr readings, out) =>
          Some (readings,
                out ++ [("Found " ++ str_nat (length readings)
                         ++ " readings in " ++ file_path)%string])
      | Some (inl _, out) =>
          Some ([], out ++ [("Error processing " ++ file_path
                             ++ ": list index out of range")%string])
      end
  end.

(** What a group of three lines starting at line [i] contributes: a reading
    or one printed line. *)
Definition group_outcome (i : nat) (l0 l1 l2 : string) : string + reading :=
  match re_search gas_pattern (py_strip l0),
        re_search temp_pattern (py_strip l1),
        re_search humidity_pattern (py_strip l2) with
  | Some g, Some t, Some h =>
      match convert g t h with
      | inr r => inr r
      | inl ve => inl ("Error converting values: " ++ ve)%string
      end
  | _, _, _ => inl ("Failed to match pattern at line " ++ str_nat i)%string
  end.

(** The outcomes of the complete groups of three of a list of lines whose
    first line has number [i]; one or two lines left at the end make no
    group. *)
Fixpoint group_outcomes (lines : list string) (i : nat)
  : list (string + reading) :=
  match lines with
  | l0 :: l1 :: l2 :: lines' =>
      group_outcome i l0 l1 l2 :: group_outcomes lines' (i + 3)
  | _ => []
  end.

Definition readings_of (outcomes : list (string + reading)) : list reading :=
  flat_map (fun o => match o with inr r => [r] | inl _ => [] end) outcomes.

Definition printed_of (outcomes : list (string + reading)) : list string :=
  flat_map (fun o => match o with inr _ => [] | inl line => [line] end) outcomes.

End ConvertToCsv.

(** * Facts *)

(** ** Python indexing *)

Lemma py_getitem_nat {A} (l : list A) (i : nat) (dflt : A) :
  (i < length l)%nat -> py_getitem l (Z.of_nat i) = inr (nth i l dflt).
Proof.
  intro Hi. unfold py_getitem.
  destruct (Z.of_nat i <? 0) eqn:Hneg; [apply Z.ltb_lt in Hneg; lia|].
  cbv zeta. rewrite Hneg. unfold orb.
  destruct (Z.of_nat (length l) <=? Z.of_nat i) eqn:Hge;
    [apply Z.leb_le in Hge; lia|].
  rewrite Nat2Z.id.
  destruct (nth_error l i) eqn:Hn.
  - f_equal. symmetry. apply nth_error_nth. exact Hn.
  - apply nth_error_None in Hn. lia.
Qed.

Lemma py_getitem_last {A} (l : list A) (dflt : A) :
  l <> [] -> py_getitem l (-1) = inr (last l dflt).
Proof.
  intro Hne. destruct (exists_last Hne) as [l0 [a ->]].
  rewrite last_last. unfold py_getitem. rewrite length_app.
  change (length [a]) with 1%nat.
  set (n := Z.of_nat (length l0 + 1)).
  assert (Hn : n = Z.of_nat (length l0) + 1) by (unfold n; lia).
  change (-1 <? 0) with true. cbv zeta iota.
  destruct (-1 + n <? 0) eqn:Hneg; [apply Z.ltb_lt in Hneg; lia|].
  destruct (n <=? -1 + n) eqn:Hge; [apply Z.leb_le in Hge; lia|].
  unfold orb.
  replace (Z.to_nat (-1 + n)) with (length l0) by lia.
  rewrite (nth_error_app2 l0 [a] (Nat.le_refl _)), Nat.sub_diag. reflexivity.
Qed.

Lemma py_getitem_In {A} (l : list A) (i : Z) (a : A) :
  py_getitem l i = inr a -> In a l.
Proof.
  unfold py_getitem.
  destruct ((_ <? 0) || _); [discriminate|].
  destruct (nth_error l _) eqn:Hn; [|discriminate].
  intro H. injection H as <-. eapply nth_error_In. exact Hn.
Qed.

Lemma py_getitem_nil {A} (i : Z) : @py_getitem A [] i = inl IndexError.
Proof.
  unfold py_getitem. simpl.
  destruct (i <? 0) eqn:Hi.
  - rewrite Z.add_0_r, Hi. reflexivity.
  - destruct (0 <=? i) eqn:Hj; [rewrite orb_true_r; reflexivity|].
    apply Z.ltb_ge in Hi. apply Z.leb_gt in Hj. lia.
Qed.

Lemma py_getitem_label {A} (l : list A) (i : Z) :
  l <> [] -> label_ok (length l) i -> exists a, py_getitem l i = inr a /\ In a l.
Proof.
  intros Hne [-> | Hi].
  - destruct l as [|a0 l']; [congruence|].
    exists (last (a0 :: l') a0). split.
    + apply py_getitem_last. discriminate.
    + generalize (@exists_last _ (a0 :: l')); intro E.
      destruct E as [l0 [a E]]; [discriminate|]. rewrite E, last_last.
      apply in_or_app. right. left. reflexivity.
  - destruct l as [|a0 l']; [congruence|].
    exists (nth (Z.to_nat i) (a0 :: l') a0).
    assert (Hlt : (Z.to_nat i < length (a0 :: l'))%nat) by lia.
    split.
    + rewrite <- (py_getitem_nat (a0 :: l') (Z.to_nat i) a0 Hlt).
      f_equal. lia.
    + apply nth_In. exact Hlt.
Qed.

(** ** The order of the heap *)

Lemma cmp2_true (a b : Faiss.hit) :
  Faiss.cmp2 a b = true <-> fst b < fst a \/ (fst a = fst b /\ snd b < snd a).
Proof.
  unfold Faiss.cmp2.
  rewrite orb_true_iff, andb_true_iff, !Z.gtb_lt, Z.eqb_eq. tauto.
Qed.

Lemma cmp2_false (a b : Faiss.hit) : Faiss.cmp2 a b = false <-> hit_le a b.
Proof.
  unfold hit_le. destruct (Faiss.cmp2 a b) eqn:E.
  - apply cmp2_true in E. split; [discriminate|]. lia.
  - split; [intros _|reflexivity].
    assert (H : ~ (fst b < fst a \/ (fst a = fst b /\ snd b < snd a))).
    { intro H. apply cmp2_true in H. congruence. }
    lia.
Qed.

Lemma hit_le_refl (a : Faiss.hit) : hit_le a a.
Proof. unfold hit_le. lia. Qed.

Lemma hit_le_trans (a b c : Faiss.hit) : hit_le a b -> hit_le b c -> hit_le a c.
Proof. unfold hit_le. lia. Qed.

Lemma hit_le_antisym (a b : Faiss.hit) : hit_le a b -> hit_le b a -> a = b.
Proof.
  unfold hit_le. destruct a, b. simpl. intros H1 H2.
  f_equal; lia.
Qed.

(** ** Pushing into the sorted heap *)

Lemma heap_push_length (e : Faiss.hit) (h : list Faiss.hit) :
  length (Faiss.heap_push e h) = S (length h).
Proof.
  induction h as [|x t IH]; simpl; [reflexivity|].
  destruct (Faiss.cmp2 x e); simpl; [reflexivity|]. now rewrite IH.
Qed.

Lemma heap_push_perm (e : Faiss.hit) (h : list Faiss.hit) :
  Permutation (Faiss.heap_push e h) (e :: h).
Proof.
  induction h as [|x t IH]; simpl; [reflexivity|].
  destruct (Faiss.cmp2 x e); [reflexivity|].
  rewrite IH. apply perm_swap.
Qed.

Lemma heap_push_sorted (e : Faiss.hit) (h : list Faiss.hit) :
  StronglySorted hit_le h -> StronglySorted hit_le (Faiss.heap_push e h).
Proof.
  induction 1 as [|x t Hs IH Hx]; simpl.
  - constructor; constructor.
  - destruct (Faiss.cmp2 x e) eqn:E.
    + assert (Hex : hit_le e x).
      { apply cmp2_true in E. unfold hit_le. lia. }
      constructor; [constructor; assumption|].
      constructor; [exact Hex|].
      eapply Forall_impl; [|exact Hx].
      intros y Hy. eapply hit_le_trans; eassumption.
    + constructor; [exact IH|].
      apply cmp2_false in E.
      rewrite Forall_forall. intros y Hy.
      apply (Permutation_in _ (heap_push_perm e t)) in Hy.
      destruct Hy as [<- | Hy]; [exact E|].
      rewrite Forall_forall in Hx. now apply Hx.
Qed.

(** A hit goes in front of the first element above it: what follows that
    element plays no part. *)
Lemma heap_push_app (e p : Faiss.hit) (L P : list Faiss.hit) :
  Faiss.cmp2 p e = true ->
  Faiss.heap_push e (L ++ p :: P) = Faiss.heap_push e L ++ p :: P.
Proof.
  intro Hp. induction L as [|x t IH]; simpl.
  - now rewrite Hp.
  - destruct (Faiss.cmp2 x e); [reflexivity|]. now rewrite IH.
Qed.

Lemma heap_push_end (e : Faiss.hit) (h : list Faiss.hit) :
  Forall (fun x => hit_le x e) h -> Faiss.heap_push e h = h ++ [e].
Proof.
  induction 1 as [|x t Hx _ IH]; simpl; [reflexivity|].
  apply cmp2_false in Hx. now rewrite Hx, IH.
Qed.

(** Cutting the heap at [k] before or after a push shows the same [k]
    first hits. *)
Lemma firstn_heap_push (e : Faiss.hit) (L : list Faiss.hit) (k : nat) :
  firstn k (Faiss.heap_push e (firstn k L)) = firstn k (Faiss.heap_push e L).
Proof.
  revert k. induction L as [|x t IH]; intro k.
  - now rewrite firstn_nil.
  - destruct k as [|k]; [reflexivity|]. simpl.
    destruct (Faiss.cmp2 x e).
    + simpl. f_equal.
      change (x :: firstn k t) with (firstn (S k) (x :: t)).
      rewrite firstn_firstn. f_equal. lia.
    + simpl. f_equal. apply IH.
Qed.

Lemma push_all_length (es h : list Faiss.hit) :
  length (push_all es h) = (length es + length h)%nat.
Proof.
  unfold push_all. revert h. induction es as [|e es IH]; intro h; simpl.
  - reflexivity.
  - rewrite IH, heap_push_length. lia.
Qed.

Lemma push_all_perm (es h : list Faiss.hit) :
  Permutation (push_all es h) (es ++ h).
Proof.
  unfold push_all. revert h. induction es as [|e es IH]; intro h; simpl.
  - reflexivity.
  - rewrite IH, heap_push_perm. symmetry. apply Permutation_middle.
Qed.

Lemma push_all_sorted (es h : list Faiss.hit) :
  StronglySorted hit_le h -> StronglySorted hit_le (push_all es h).
Proof.
  unfold push_all. revert h. induction es as [|e es IH]; intros h Hs; simpl.
  - exact Hs.
  - apply IH, heap_push_sorted, Hs.
Qed.

Lemma firstn_push_all (es L : list Faiss.hit) (k : nat) :
  firstn k (push_all es (firstn k L)) = firstn k (push_all es L).
Proof.
  unfold push_all. revert L. induction es as [|e es IH]; intro L; simpl.
  - rewrite firstn_firstn, Nat.min_id. reflexivity.
  - rewrite <- IH, firstn_heap_push, IH. reflexivity.
Qed.

(** ** Cutting lists *)

Lemma In_firstn_inv {A} (k : nat) (l : list A) (a : A) :
  In a (firstn k l) -> In a l.
Proof.
  revert k. induction l as [|x t IH]; intros [|k]; simpl; try tauto.
  intros [-> | H]; [now left|right; eauto].
Qed.

Lemma Forall_firstn_inv {A} (P : A -> Prop) (k : nat) (l : list A) :
  Forall P l -> Forall P (firstn k l).
Proof.
  rewrite !Forall_forall. intros H a Ha. eapply H, In_firstn_inv, Ha.
Qed.

Lemma StronglySorted_firstn {A} (R : A -> A -> Prop) (k : nat) (l : list A) :
  StronglySorted R l -> StronglySorted R (firstn k l).
Proof.
  intro Hs. revert k. induction Hs as [|x t Hs IH Hx]; intros [|k]; simpl;
    try constructor.
  - apply IH.
  - now apply Forall_firstn_inv.
Qed.

Lemma StronglySorted_last {A} (R : A -> A -> Prop) (l : list A) (t : A) :
  StronglySorted R (l ++ [t]) -> Forall (fun x => R x t) l.
Proof.
  induction l as [|x l IH]; simpl; intro Hs; [constructor|].
  apply StronglySorted_inv in Hs. destruct Hs as [Hs Hx].
  constructor; [|auto].
  rewrite Forall_forall in Hx. apply Hx, in_or_app. right. now left.
Qed.

Lemma nth_middle_map {A B} (f : A -> B) (l l' : list B) (hs : list A) (a d : B) :
  l = map f hs -> nth (length hs) (l ++ a :: l') d = a.
Proof. intros ->. rewrite <- (length_map f hs). apply nth_middle. Qed.

(** ** The scan keeps the [k] first hits of the sorted whole *)

Section ScanFacts.

Context {lib : Faiss.library}.

Lemma add_result_firstn (h : list Faiss.hit) (dis : float32) (j : Z) :
  StronglySorted hit_le h -> h <> [] -> Forall (fun x => snd x < j) h ->
  Faiss.add_result h dis j = firstn (length h) (Faiss.heap_push (dis, j) h).
Proof.
  intros Hs Hne Hl.
  unfold Faiss.add_result, Faiss.heap_top, Faiss.heap_replace_top.
  destruct (exists_last Hne) as [h0 [t ->]].
  rewrite last_last, removelast_last.
  destruct (fst t >? dis) eqn:E.
  - apply Z.gtb_lt in E.
    rewrite heap_push_app by (apply cmp2_true; left; simpl; lia).
    rewrite length_app. simpl length.
    replace (length h0 + 1)%nat
      with (length (Faiss.heap_push (dis, j) h0) + 0)%nat
      by (rewrite heap_push_length; lia).
    rewrite firstn_app_2. simpl. now rewrite app_nil_r.
  - rewrite heap_push_end.
    + rewrite firstn_app, firstn_all, Nat.sub_diag. simpl. now rewrite app_nil_r.
    + assert (Ht : ~ dis < fst t) by (intro H; apply Z.gtb_lt in H; congruence).
      pose proof (StronglySorted_last _ _ _ Hs) as Hlast.
      rewrite Forall_forall in *. intros x Hx.
      assert (Hxt : hit_le x t).
      { apply in_app_or in Hx. destruct Hx as [Hx | [<- | []]].
        - now apply Hlast.
        - apply hit_le_refl. }
      specialize (Hl x Hx). unfold hit_le in *. simpl. lia.
Qed.

Lemma scan_firstn (x : list float32) (ys : list (list float32)) :
  forall (j : Z) (h : list Faiss.hit),
    StronglySorted hit_le h -> h <> [] -> Forall (fun e => snd e < j) h ->
    Faiss.exhaustive_L2sqr_seq x ys j h
    = firstn (length h) (push_all (scan_hits x ys j) h).
Proof.
  induction ys as [|y ys IH]; intros j h Hs Hne Hl; simpl.
  - unfold push_all. simpl. now rewrite firstn_all.
  - rewrite add_result_firstn by assumption.
    set (e := (Faiss.fvec_L2sqr x y, j)).
    assert (Hlen : length (firstn (length h) (Faiss.heap_push e h)) = length h).
    { rewrite length_firstn, heap_push_length. lia. }
    rewrite IH.
    + rewrite Hlen, firstn_push_all. reflexivity.
    + apply StronglySorted_firstn, heap_push_sorted, Hs.
    + intro H0. rewrite H0 in Hlen. destruct h; [congruence|discriminate].
    + apply Forall_firstn_inv. rewrite Forall_forall in *. intros a Ha.
      apply (Permutation_in _ (heap_push_perm e h)) in Ha.
      destruct Ha as [<- | Ha]; [simpl; lia|].
      specialize (Hl a Ha). lia.
Qed.

Lemma heapify_sorted (k : nat) : StronglySorted hit_le (Faiss.heap_heapify k).
Proof.
  unfold Faiss.heap_heapify. induction k as [|k IH]; simpl; constructor.
  - exact IH.
  - rewrite Forall_forall. intros a Ha. apply repeat_spec in Ha. subst a.
    apply hit_le_refl.
Qed.

(** The [k] hits of a query are the [k] first of all hits and [k] neutral
    hits, sorted. *)
Lemma knn_firstn (ix : Faiss.IndexFlatL2) (k : Z) (x : list float32) :
  0 < k ->
  Faiss.knn ix k x
  = firstn (Z.to_nat k)
      (push_all (scan_hits x (Faiss.index_xb ix) 0)
                (Faiss.heap_heapify (Z.to_nat k))).
Proof.
  intro Hk. unfold Faiss.knn.
  rewrite scan_firstn.
  - unfold Faiss.heap_heapify at 1. now rewrite repeat_length.
  - apply heapify_sorted.
  - unfold Faiss.heap_heapify. destruct (Z.to_nat k) eqn:E; [lia|discriminate].
  - unfold Faiss.heap_heapify. rewrite Forall_forall. intros a Ha.
    apply repeat_spec in Ha. subst a. simpl. lia.
Qed.

Lemma knn_length (ix : Faiss.IndexFlatL2) (k : Z) (x : list float32) :
  0 < k -> length (Faiss.knn ix k x) = Z.to_nat k.
Proof.
  intro Hk. rewrite knn_firstn by assumption.
  rewrite length_firstn, push_all_length.
  unfold Faiss.heap_heapify. rewrite repeat_length. lia.
Qed.

(** ** Distances and labels of a scan *)

Lemma fvec_L2sqr_nonneg (x y : list float32) : 0 <= Faiss.fvec_L2sqr x y.
Proof. unfold Faiss.fvec_L2sqr. apply N2Z.is_nonneg. Qed.

Lemma FLT_MAX_pos : 0 < FLT_MAX.
Proof. reflexivity. Qed.

Lemma scan_hits_length (x : list float32) (ys : list (list float32)) (j : Z) :
  length (scan_hits x ys j) = length ys.
Proof.
  revert j. induction ys as [|y ys IH]; intro j; simpl; [reflexivity|].
  now rewrite IH.
Qed.

Lemma scan_hits_spec (x : list float32) (ys : list (list float32)) (j : Z) :
  Forall (fun h => 0 <= fst h /\ j <= snd h < j + Z.of_nat (length ys))
         (scan_hits x ys j).
Proof.
  revert j. induction ys as [|y ys IH]; intro j; simpl; constructor.
  - simpl. split; [apply fvec_L2sqr_nonneg|lia].
  - eapply Forall_impl; [|apply IH]. simpl. intros h Hh. lia.
Qed.

Lemma scan_hits_map {A} (f : A -> list float32) (x : list float32)
      (l : list A) (dflt : A) (j : Z) :
  scan_hits x (map f l) j
  = map (fun i => (Faiss.fvec_L2sqr x (f (nth i l dflt)), j + Z.of_nat i))
        (seq 0 (length l)).
Proof.
  revert j. induction l as [|a l IH]; intro j; simpl; [reflexivity|].
  f_equal; [f_equal; lia|].
  rewrite IH, <- seq_shift, map_map.
  apply map_ext. intro i. f_equal. lia.
Qed.

Lemma scan_hits_corpus (dim : nat) (embed : string -> nat -> float32)
      (query : string) (D : list string) :
  scan_hits (embedding dim embed query) (map (embedding dim embed) D) 0
  = corpus_hits dim embed query D.
Proof.
  unfold corpus_hits, distance_to. rewrite (scan_hits_map _ _ _ EmptyString).
  reflexivity.
Qed.

(** Every hit that a query returns is a hit of the scan or the neutral hit. *)
Lemma knn_hits (ix : Faiss.IndexFlatL2) (k : Z) (x : list float32) :
  0 < k ->
  Forall (fun h => h = Faiss.neutral \/ In h (scan_hits x (Faiss.index_xb ix) 0))
         (Faiss.knn ix k x).
Proof.
  intro Hk. rewrite knn_firstn by assumption.
  apply Forall_firstn_inv. rewrite Forall_forall. intros h Hh.
  apply (Permutation_in _ (push_all_perm _ _)) in Hh.
  apply in_app_or in Hh. destruct Hh as [Hh | Hh]; [now right|left].
  unfold Faiss.heap_heapify in Hh. now apply repeat_spec in Hh.
Qed.

Lemma knn_labels (ix : Faiss.IndexFlatL2) (k : Z) (x : list float32) :
  0 < k ->
  Forall (fun h => label_ok (Faiss.ntotal ix) (snd h) /\ 0 <= fst h)
         (Faiss.knn ix k x).
Proof.
  intro Hk. eapply Forall_impl; [|apply knn_hits; exact Hk].
  intros h [-> | Hh].
  - split; [now left|]. simpl. pose proof FLT_MAX_pos. lia.
  - pose proof (scan_hits_spec x (Faiss.index_xb ix) 0) as Hs.
    rewrite Forall_forall in Hs. specialize (Hs h Hh).
    unfold label_ok, Faiss.ntotal. split; [right|]; lia.
Qed.

(** Hits whose distances stay below [FLT_MAX] sort in front of the neutral
    hits. *)
Lemma push_all_neutral (es L : list Faiss.hit) (m : nat) :
  Forall (fun e => fst e < FLT_MAX) es ->
  push_all es (L ++ repeat Faiss.neutral m) = push_all es L ++ repeat Faiss.neutral m.
Proof.
  unfold push_all. intro Hes. revert L.
  induction Hes as [|e es He _ IH]; intro L; simpl; [reflexivity|].
  rewrite <- IH. f_equal.
  destruct m as [|m]; simpl; [now rewrite !app_nil_r|].
  apply heap_push_app. apply cmp2_true. left. simpl. exact He.
Qed.

Lemma knn_ranked (ix : Faiss.IndexFlatL2) (k : Z) (x : list float32) :
  0 < k <= Z.of_nat (Faiss.ntotal ix) ->
  Forall (fun y => Faiss.fvec_L2sqr x y < FLT_MAX) (Faiss.index_xb ix) ->
  Faiss.knn ix k x
  = firstn (Z.to_nat k) (push_all (scan_hits x (Faiss.index_xb ix) 0) []).
Proof.
  intros Hk Hb. rewrite knn_firstn by lia.
  unfold Faiss.heap_heapify.
  rewrite (push_all_neutral _ [] (Z.to_nat k)).
  - rewrite firstn_app.
    replace (Z.to_nat k - length (push_all (scan_hits x (Faiss.index_xb ix) 0) []))%nat
      with 0%nat.
    + simpl. now rewrite app_nil_r.
    + rewrite push_all_length, scan_hits_length. unfold Faiss.ntotal in Hk.
      simpl. lia.
  - clear Hk. generalize 0. induction Hb as [|y ys Hy _ IH]; intro j; simpl;
      constructor; auto.
Qed.

End ScanFacts.

(** ** Running method bodies *)

Lemma bind_lift_inr {A B} (a : A) (f : A -> M B) (w : world) :
  bind (lift (inr a)) f w = f a w.
Proof. reflexivity. Qed.

Lemma bind_lift_inl {A B} (e : exception) (f : A -> M B) (w : world) :
  bind (lift (inl e)) f w = (inl e, w).
Proof. reflexivity. Qed.

Lemma bind_get_self {B} (f : ScentSearch -> M B) (w : world) :
  bind get_self f w = f (self w) w.
Proof. reflexivity. Qed.

Lemma py_getitem_0 {A} (a : A) (l : list A) : py_getitem (a :: l) 0 = inr a.
Proof. apply (py_getitem_nat (a :: l) 0 a). simpl. lia. Qed.

Lemma py_getitem_1 {A} (a b : A) : py_getitem [a; b] 1 = inr b.
Proof. reflexivity. Qed.

(** The constants of the class by name, for the proofs below, where the
    names stand for the methods of one fixed model. *)
Ltac unfold_add_scents := unfold add_scents.
Ltac unfold_search := unfold search.
Ltac unfold_after_add_scents := unfold after_add_scents.
Ltac unfold_after_searches := unfold after_searches.
Ltac unfold_distance_to := unfold distance_to.
Ltac unfold_corpus_hits := unfold corpus_hits.
Ltac unfold_no_overflow := unfold no_overflow.

Section Facts.

Context {faiss : Faiss.library}.
Variable model_dim : nat.
Variable model_embed : string -> nat -> float32.

Local Abbreviation embedding := (embedding model_dim model_embed).
Local Abbreviation model_encode := (model_encode model_dim model_embed).
Local Abbreviation add_scents := (add_scents model_dim model_embed).
Local Abbreviation search := (search model_dim model_embed).
Local Abbreviation after_add_scents := (after_add_scents model_dim model_embed).
Local Abbreviation after_searches := (after_searches model_dim model_embed).
Local Abbreviation distance_to := (distance_to model_dim model_embed).
Local Abbreviation corpus_hits := (corpus_hits model_dim model_embed).
Local Abbreviation no_overflow := (no_overflow model_dim model_embed).

(** *** [add_scents] *)

Lemma add_scents_nonempty (D : list string) (w : world) :
  D <> [] ->
  add_scents D w
  = (inr tt,
     {| self := {| scent_descriptions := D;
                   scent_vectors := Some (model_encode D);
                   index := Some {| Faiss.index_d := model_dim;
                                    Faiss.index_xb := map embedding D |} |};
        stdout := (stdout w
                   ++ [("Added " ++ str_nat (length D) ++ " scents to index")%string])
                   ++ [("Vector shape: "
                        ++ str_shape [length D; model_dim])%string] |}).
Proof.
  destruct D as [|s D]; [congruence|intros _].
  unfold_add_scents. unfold bind, set_scent_descriptions, set_scent_vectors,
    set_index, get_self, attr_of, print, ret.
  cbn -[str_nat str_shape String.append py_getitem Nat.eqb].
  rewrite py_getitem_1. cbn -[str_nat str_shape String.append Nat.eqb].
  rewrite Nat.eqb_refl. reflexivity.
Qed.

Lemma add_scents_empty (w : world) :
  add_scents [] w
  = (inl IndexError,
     {| self := {| scent_descriptions := [];
                   scent_vectors := Some {| shape := [0%nat]; rows := [] |};
                   index := index (self w) |};
        stdout := stdout w |}).
Proof. reflexivity. Qed.

(** *** [search] *)

Lemma format_results_frame (range : list nat) (distances : list (list float32))
      (indices : list (list Z)) :
  forall (results : list (string * float32)) (w : world),
    snd (format_results range distances indices results w) = w.
Proof.
  induction range as [|i range IH]; intros results w; [reflexivity|].
  cbn [format_results]. unfold bind at 1.
  destruct (py_getitem indices 0) as [e|row]; [reflexivity|].
  cbn [lift ret]. unfold bind at 1.
  destruct (py_getitem row (Z.of_nat i)) as [e|idx]; [reflexivity|].
  cbn [lift ret]. unfold bind at 1.
  destruct (py_getitem distances 0) as [e|drow]; [reflexivity|].
  cbn [lift ret]. unfold bind at 1.
  destruct (py_getitem drow (Z.of_nat i)) as [e|distance]; [reflexivity|].
  cbn [lift ret]. rewrite bind_get_self. unfold bind at 1.
  destruct (py_getitem (scent_descriptions (self w)) idx) as [e|s]; [reflexivity|].
  cbn [lift ret]. apply IH.
Qed.

Lemma format_results_In (range : list nat) (distances : list (list float32))
      (indices : list (list Z)) :
  forall (results rs : list (string * float32)) (w : world),
    Forall (fun r => In (fst r) (scent_descriptions (self w))) results ->
    fst (format_results range distances indices results w) = inr rs ->
    Forall (fun r => In (fst r) (scent_descriptions (self w))) rs.
Proof.
  induction range as [|i range IH]; intros results rs w Hres.
  - simpl. intro H. injection H as <-. exact Hres.
  - cbn [format_results]. unfold bind at 1.
    destruct (py_getitem indices 0) as [e|row]; [discriminate|].
    cbn [lift ret]. unfold bind at 1.
    destruct (py_getitem row (Z.of_nat i)) as [e|idx]; [discriminate|].
    cbn [lift ret]. unfold bind at 1.
    destruct (py_getitem distances 0) as [e|drow]; [discriminate|].
    cbn [lift ret]. unfold bind at 1.
    destruct (py_getitem drow (Z.of_nat i)) as [e|distance]; [discriminate|].
    cbn [lift ret]. rewrite bind_get_self. unfold bind at 1.
    destruct (py_getitem (scent_descriptions (self w)) idx) as [e|s] eqn:Hs;
      [discriminate|].
    cbn [lift ret]. apply IH.
    apply Forall_app. split; [exact Hres|].
    constructor; [|constructor]. simpl. eapply py_getitem_In, Hs.
Qed.

Lemma format_results_hits (w : world) (hs2 : list Faiss.hit) :
  forall (hs1 : list Faiss.hit) (results : list (string * float32)),
    scent_descriptions (self w) <> [] ->
    Forall (fun h => label_ok (length (scent_descriptions (self w))) (snd h)) hs2 ->
    format_results (seq (length hs1) (length hs2))
                   [map fst (hs1 ++ hs2)] [map snd (hs1 ++ hs2)] results w
    = (inr (results ++ map (result_of_hit (scent_descriptions (self w))) hs2), w).
Proof.
  induction hs2 as [|h hs2 IH]; intros hs1 results Hne Hok.
  - simpl. now rewrite app_nil_r.
  - apply Forall_cons_iff in Hok. destruct Hok as [Hh Hok].
    cbn [length seq format_results].
    assert (Hlen : (length hs1 < length (hs1 ++ h :: hs2))%nat).
    { rewrite length_app. simpl. lia. }
    rewrite py_getitem_0, bind_lift_inr. cbv beta.
    rewrite (py_getitem_nat (map snd (hs1 ++ h :: hs2)) (length hs1) (snd h))
      by (now rewrite length_map).
    rewrite bind_lift_inr. cbv beta.
    rewrite py_getitem_0, bind_lift_inr. cbv beta.
    rewrite (py_getitem_nat (map fst (hs1 ++ h :: hs2)) (length hs1) (fst h))
      by (now rewrite length_map).
    rewrite bind_lift_inr, bind_get_self. cbv beta.
    rewrite !map_app. cbn [map]. rewrite (nth_middle_map snd _ _ hs1), (nth_middle_map fst _ _ hs1) by reflexivity.
    destruct (py_getitem_label (scent_descriptions (self w)) (snd h) Hne Hh)
      as [s [Hs _]].
    rewrite Hs, bind_lift_inr.
    specialize (IH (hs1 ++ [h]) (results ++ [(s, fst h)]) Hne Hok).
    rewrite length_app in IH. simpl length in IH.
    rewrite Nat.add_1_r, <- !app_assoc, !map_app in IH. simpl in IH.
    rewrite IH. unfold result_of_hit at 2. now rewrite Hs.
Qed.

Lemma faiss_search_query (ix : Faiss.IndexFlatL2) (query : string) (k : Z) :
  Faiss.search ix (model_encode [query]) k
  = if negb (Nat.eqb model_dim (Faiss.index_d ix)) then inl AssertionError
    else if negb (k >? 0) then inl AssertionError
    else if Faiss.distance_compute_min_k_reservoir <=? k
         then Faiss.search_many ix (model_encode [query]) k
    else inr ([map fst (Faiss.knn ix k (embedding query))],
              [map snd (Faiss.knn ix k (embedding query))]).
Proof. reflexivity. Qed.

Lemma search_frame (query : string) (k : Z) (w : world) :
  snd (search query k w) = w.
Proof.
  unfold_search. rewrite bind_get_self. unfold bind at 1.
  destruct (index (self w)) as [ix|]; [|reflexivity].
  cbn [attr_of ret]. unfold bind at 1.
  destruct (Faiss.search ix (model_encode [query]) k) as [e|DI]; [reflexivity|].
  cbn [lift ret]. unfold bind at 1.
  destruct (py_getitem (snd DI) 0) as [e|row]; [reflexivity|].
  cbn [lift ret]. apply format_results_frame.
Qed.

Lemma search_In (query : string) (k : Z) (w : world)
      (rs : list (string * float32)) :
  fst (search query k w) = inr rs ->
  Forall (fun r => In (fst r) (scent_descriptions (self w))) rs.
Proof.
  unfold_search. rewrite bind_get_self. unfold bind at 1.
  destruct (index (self w)) as [ix|]; [|discriminate].
  cbn [attr_of ret]. unfold bind at 1.
  destruct (Faiss.search ix (model_encode [query]) k) as [e|DI]; [discriminate|].
  cbn [lift ret]. unfold bind at 1.
  destruct (py_getitem (snd DI) 0) as [e|row]; [discriminate|].
  cbn [lift ret]. apply format_results_In. constructor.
Qed.

Lemma search_uninitialized (query : string) (k : Z) (w : world) :
  index (self w) = None -> search query k w = (inl AttributeError, w).
Proof.
  intro H. unfold_search. rewrite bind_get_self. unfold bind at 1.
  now rewrite H.
Qed.

Lemma search_nonpositive (query : string) (k : Z) (w : world)
      (ix : Faiss.IndexFlatL2) :
  index (self w) = Some ix -> k < 1 -> search query k w = (inl AssertionError, w).
Proof.
  intros H Hk. unfold_search. rewrite bind_get_self. unfold bind at 1.
  rewrite H. cbn [attr_of ret]. rewrite faiss_search_query.
  destruct (negb (Nat.eqb model_dim (Faiss.index_d ix))); [reflexivity|].
  destruct (k >? 0) eqn:E; [apply Z.gtb_lt in E; lia|reflexivity].
Qed.

(** On an index of the model's dimension, with one description per stored
    vector, a query for fewer than 100 results succeeds, and its results
    are the hits of the index in their order. *)
Lemma search_hits (query : string) (k : Z) (w : world) (ix : Faiss.IndexFlatL2) :
  index (self w) = Some ix ->
  Faiss.index_d ix = model_dim ->
  length (scent_descriptions (self w)) = Faiss.ntotal ix ->
  scent_descriptions (self w) <> [] ->
  0 < k < Faiss.distance_compute_min_k_reservoir ->
  search query k w
  = (inr (map (result_of_hit (scent_descriptions (self w)))
              (Faiss.knn ix k (embedding query))), w).
Proof.
  intros H Hd Hlen Hne Hk.
  unfold_search. rewrite bind_get_self. unfold bind at 1.
  rewrite H. cbn [attr_of ret]. rewrite faiss_search_query.
  rewrite Hd, Nat.eqb_refl. cbn [negb].
  destruct (k >? 0) eqn:E; [|rewrite Z.gtb_ltb in E; apply Z.ltb_ge in E; lia].
  destruct (100 <=? k) eqn:E100; [apply Z.leb_le in E100; lia|].
  cbn [negb]. rewrite bind_lift_inr. cbn [fst snd].
  rewrite py_getitem_0, bind_lift_inr, length_map.
  apply (format_results_hits w (Faiss.knn ix k (embedding query)) [] [] Hne).
  rewrite Hlen. eapply Forall_impl; [|apply knn_labels; lia].
  intros h Hh. apply Hh.
Qed.

Lemma format_results_agree (range : list nat) (distances : list (list float32))
      (indices : list (list Z)) :
  forall (results : list (string * float32)) (w1 w2 : world),
    scent_descriptions (self w1) = scent_descriptions (self w2) ->
    fst (format_results range distances indices results w1)
    = fst (format_results range distances indices results w2).
Proof.
  induction range as [|i range IH]; intros results w1 w2 H; [reflexivity|].
  cbn [format_results]. unfold bind, lift, get_self, ret, raise.
  destruct (py_getitem indices 0) as [e|row]; [reflexivity|].
  destruct (py_getitem row (Z.of_nat i)) as [e|idx]; [reflexivity|].
  destruct (py_getitem distances 0) as [e|drow]; [reflexivity|].
  destruct (py_getitem drow (Z.of_nat i)) as [e|distance]; [reflexivity|].
  cbv beta iota. rewrite H.
  destruct (py_getitem (scent_descriptions (self w2)) idx) as [e|s];
    [reflexivity|].
  apply IH, H.
Qed.

Lemma search_agree (query : string) (k : Z) (w1 w2 : world) :
  scent_descriptions (self w1) = scent_descriptions (self w2) ->
  index (self w1) = index (self w2) ->
  fst (search query k w1) = fst (search query k w2).
Proof.
  intros Hd Hi. unfold_search. rewrite !bind_get_self, Hi.
  unfold bind, lift, attr_of, ret, raise.
  destruct (index (self w2)) as [ix|]; [|reflexivity].
  destruct (Faiss.search ix (model_encode [query]) k) as [e|DI]; [reflexivity|].
  destruct (py_getitem (snd DI) 0) as [e|row]; [reflexivity|].
  apply format_results_agree, Hd.
Qed.

Lemma after_searches_frame (queries : list (string * Z)) (w : world) :
  after_searches queries w = w.
Proof.
  unfold_after_searches. induction queries as [|qk queries IH]; simpl.
  - reflexivity.
  - now rewrite search_frame.
Qed.

(** *** The built store *)

Lemma after_add_scents_descriptions (D : list string) (w : world) :
  scent_descriptions (self (after_add_scents D w)) = D.
Proof.
  unfold_after_add_scents. destruct D as [|s D].
  - reflexivity.
  - now rewrite add_scents_nonempty.
Qed.

Lemma after_add_scents_index (D : list string) (w : world) :
  D <> [] ->
  index (self (after_add_scents D w))
  = Some {| Faiss.index_d := model_dim; Faiss.index_xb := map embedding D |}.
Proof.
  intro Hne. unfold_after_add_scents. now rewrite add_scents_nonempty.
Qed.

Lemma search_built (D : list string) (w : world) (query : string) (k : Z) :
  D <> [] -> 0 < k < Faiss.distance_compute_min_k_reservoir ->
  search query k (after_add_scents D w)
  = (inr (map (result_of_hit D)
              (Faiss.knn {| Faiss.index_d := model_dim;
                            Faiss.index_xb := map embedding D |}
                         k (embedding query))),
     after_add_scents D w).
Proof.
  intros Hne Hk.
  rewrite (search_hits query k _ _ (after_add_scents_index D w Hne));
    rewrite ?after_add_scents_descriptions; try reflexivity; try assumption.
  unfold Faiss.ntotal. simpl. now rewrite length_map.
Qed.

Lemma result_of_hit_nth (D : list string) (h : Faiss.hit) :
  0 <= snd h < Z.of_nat (length D) ->
  result_of_hit D h = (nth (Z.to_nat (snd h)) D EmptyString, fst h).
Proof.
  intro Hl. unfold result_of_hit.
  rewrite <- (Z2Nat.id (snd h)) at 1 by lia.
  rewrite (py_getitem_nat D (Z.to_nat (snd h)) EmptyString) by lia.
  reflexivity.
Qed.

Lemma corpus_hits_bounded (query : string) (D : list string) :
  no_overflow query D ->
  Forall (fun y => Faiss.fvec_L2sqr (embedding query) y < FLT_MAX)
         (map embedding D).
Proof.
  unfold_no_overflow. unfold_distance_to.
  intro H. rewrite Forall_map. exact H.
Qed.

Lemma corpus_hits_labels (query : string) (D : list string) :
  Forall (fun h => 0 <= fst h /\ 0 <= snd h < Z.of_nat (length D))
         (corpus_hits query D).
Proof.
  rewrite <- scan_hits_corpus.
  eapply Forall_impl; [|apply scan_hits_spec].
  simpl. intros h Hh. rewrite length_map in Hh. lia.
Qed.

(** ** The specified properties *)

(** C1, as the code has it: on a store built from a non-empty corpus,
    [search] with a [k] from 1 to 99 returns without error, and it returns
    exactly [k] results (not [min(k, n)]: [k] is not clamped to the corpus
    size).  From 100 results on the outcome is that of the library's
    [search_many], which can be an exception. *)
Theorem C1_search_returns_k_results (D : list string) (w : world)
        (query : string) (k : Z) :
  D <> [] -> 1 <= k < Faiss.distance_compute_min_k_reservoir ->
  fst (add_scents D w) = inr tt /\
  exists rs,
    search query k (after_add_scents D w) = (inr rs, after_add_scents D w) /\
    length rs = Z.to_nat k.
Proof.
  intros Hne Hk. split.
  - now rewrite add_scents_nonempty.
  - eexists. split; [apply search_built; [exact Hne|lia]|].
    rewrite length_map. apply knn_length. lia.
Qed.

(** C2, as the code has it: [search] on a store whose index was never built
    fails, with the [AttributeError] of the attribute access on [None], and
    leaves the world as it was. *)
Theorem C2_search_uninitialized_fails (w : world) (query : string) (k : Z) :
  index (self w) = None ->
  search query k w = (inl AttributeError, w).
Proof. apply search_uninitialized. Qed.

(** C3, as the code has it: every build with the empty sequence fails, with
    [IndexError] (reading [shape[1]] of the empty encoding); the failed call
    leaves the index and the output as they were, and has already replaced
    the descriptions with the empty list and the vectors with the empty
    array. *)
Theorem C3_failed_build (w : world) :
  add_scents [] w
  = (inl IndexError,
     {| self := {| scent_descriptions := [];
                   scent_vectors := Some {| shape := [0%nat]; rows := [] |};
                   index := index (self w) |};
        stdout := stdout w |}).
Proof. apply add_scents_empty. Qed.

(** C4, as the code has it, for [1 <= k <= n], [k < 100] and distances
    that the kernel computes below [FLT_MAX]: the results of [search] on a
    built store are the first [k] items of the corpus sorted ascending by
    squared Euclidean distance to the query as computed in float32, ties by
    ascending insertion id, the item of rank [i] at position [i] with its
    description and its distance. *)
Theorem C4_search_ranked (D : list string) (w : world) (query : string) (k : Z) :
  D <> [] -> 1 <= k <= Z.of_nat (length D) ->
  k < Faiss.distance_compute_min_k_reservoir ->
  no_overflow query D ->
  exists rs,
    search query k (after_add_scents D w) = (inr rs, after_add_scents D w) /\
    ranked_results (corpus_hits query D) D k rs.
Proof.
  intros Hne Hk Hk100 Hb. eexists. split; [apply search_built; [exact Hne|lia]|].
  rewrite knn_ranked.
  - cbn [Faiss.index_xb]. rewrite scan_hits_corpus.
    exists (push_all (corpus_hits query D) []). split; [|split].
    + rewrite push_all_perm. now rewrite app_nil_r.
    + apply push_all_sorted. constructor.
    + apply map_ext_in. intros h Hh. apply result_of_hit_nth.
      apply In_firstn_inv in Hh.
      apply (Permutation_in _ (push_all_perm _ _)) in Hh.
      rewrite app_nil_r in Hh.
      pose proof (corpus_hits_labels query D) as Hl.
      rewrite Forall_forall in Hl. apply Hl, Hh.
  - unfold Faiss.ntotal. cbn [Faiss.index_xb]. rewrite length_map. lia.
  - apply corpus_hits_bounded, Hb.
Qed.

(** C5: after [add_scents(D1)] and then [add_scents(D2)], with no
    description in both, no later query returns a description of [D1]:
    whatever queries were made in between and whatever [k], every result of
    a query is a description of [D2].  When [D2] is not empty the second
    build has replaced the whole store: the descriptions, the vectors and
    the index are those of [D2] alone, and a query for 1 to 99 results does
    return. *)
Theorem C5_build_replaces (D1 D2 : list string) (w : world)
        (earlier : list (string * Z)) (query : string) (k : Z) :
  (forall s, In s D1 -> ~ In s D2) ->
  let w2 := after_searches earlier (after_add_scents D2 (after_add_scents D1 w)) in
  (forall rs, fst (search query k w2) = inr rs ->
              Forall (fun r => In (fst r) D2 /\ ~ In (fst r) D1) rs) /\
  (D2 <> [] ->
   self w2 = {| scent_descriptions := D2;
                scent_vectors := Some (model_encode D2);
                index := Some {| Faiss.index_d := model_dim;
                                 Faiss.index_xb := map embedding D2 |} |}) /\
  (D2 <> [] -> 1 <= k < Faiss.distance_compute_min_k_reservoir ->
   exists rs, fst (search query k w2) = inr rs).
Proof.
  intros Hdisj w2. subst w2. rewrite after_searches_frame. split; [|split].
  - intros rs Hrs. apply search_In in Hrs.
    rewrite after_add_scents_descriptions in Hrs.
    eapply Forall_impl; [|exact Hrs]. simpl. intros r Hr. split; [exact Hr|].
    intro H1. exact (Hdisj _ H1 Hr).
  - intro Hne. unfold_after_add_scents.
    now rewrite (add_scents_nonempty D2) by exact Hne.
  - intros Hne Hk. eexists. rewrite search_built by (assumption || lia).
    reflexivity.
Qed.

(** When a stored vector lies at distance 0, the first hit of a query has
    distance 0, and no hit has a smaller one. *)
Lemma knn_head_zero (ix : Faiss.IndexFlatL2) (k : Z) (x : list float32) (i : Z) :
  0 < k -> In (0, i) (scan_hits x (Faiss.index_xb ix) 0) ->
  exists h rest,
    Faiss.knn ix k x = h :: rest /\ fst h = 0 /\
    Forall (fun r => 0 <= fst r) rest.
Proof.
  intros Hk Hin.
  pose proof (knn_labels ix k x Hk) as Hlab.
  rewrite knn_firstn in * by assumption.
  set (L := push_all (scan_hits x (Faiss.index_xb ix) 0)
                     (Faiss.heap_heapify (Z.to_nat k))) in *.
  assert (HinL : In (0, i) L).
  { apply (Permutation_in _ (Permutation_sym (push_all_perm _ _))).
    apply in_or_app. now left. }
  assert (Hs : StronglySorted hit_le L) by apply push_all_sorted, heapify_sorted.
  destruct L as [|h tl]; [destruct HinL|].
  destruct (Z.to_nat k) as [|K] eqn:EK; [lia|].
  cbn [firstn] in *. exists h, (firstn K tl).
  apply Forall_cons_iff in Hlab. destruct Hlab as [[_ Hh] Hrest].
  split; [reflexivity|split].
  - apply StronglySorted_inv in Hs. destruct Hs as [_ Hall].
    destruct HinL as [Hhd | Htl]; [now rewrite Hhd|].
    rewrite Forall_forall in Hall. specialize (Hall _ Htl).
    unfold hit_le in Hall. simpl in Hall. lia.
  - eapply Forall_impl; [|exact Hrest]. intros r Hr. apply Hr.
Qed.

(** C6, as the code has it: when the query text is one of the indexed
    descriptions and the components of its embedding are finite floats, the
    vector stored for that description lies at squared distance 0 from the
    query vector (the encoder maps the same text to the same vector, and
    the kernel finds a vector of finite floats at distance 0 from itself,
    as float32 arithmetic does); for [k] from 1 to 99 the first result of
    [search] has distance 0 and no result has a smaller distance, so this
    distance is the minimum among the results. *)
Theorem C6_exact_match (D : list string) (w : world) (query : string)
        (k : Z) (i : nat) :
  (forall x, Forall f32_finite x -> Faiss.fvec_L2sqr x x = 0) ->
  Forall f32_finite (embedding query) ->
  nth_error D i = Some query ->
  1 <= k < Faiss.distance_compute_min_k_reservoir ->
  exists ix v,
    index (self (after_add_scents D w)) = Some ix /\
    nth_error (Faiss.index_xb ix) i = Some v /\
    Faiss.fvec_L2sqr (embedding query) v = 0 /\
    exists s rest,
      search query k (after_add_scents D w)
      = (inr ((s, 0) :: rest), after_add_scents D w) /\
      Forall (fun r => 0 <= snd r) rest.
Proof.
  intros Hkernel Hfin Hi Hk.
  assert (Hne : D <> []) by (intros ->; destruct i; discriminate).
  eexists. exists (embedding query).
  split; [apply after_add_scents_index, Hne|].
  cbn [Faiss.index_xb].
  split; [apply map_nth_error, Hi|].
  split; [apply Hkernel, Hfin|].
  rewrite search_built by (assumption || lia).
  destruct (knn_head_zero {| Faiss.index_d := model_dim;
                             Faiss.index_xb := map embedding D |}
                          k (embedding query) (Z.of_nat i))
    as [h [rest [Hknn [Hh Hrest]]]]; [lia| |].
  - cbn [Faiss.index_xb]. rewrite scan_hits_corpus.
    unfold_corpus_hits. apply in_map_iff. exists i. split.
    + f_equal. unfold_distance_to.
      erewrite nth_error_nth by exact Hi. apply Hkernel, Hfin.
    + apply in_seq.
      assert (i < length D)%nat by (apply nth_error_Some; congruence). lia.
  - rewrite Hknn. cbn [map].
    exists (fst (result_of_hit D h)), (map (result_of_hit D) rest).
    split.
    + f_equal. f_equal. unfold result_of_hit. cbn [fst]. now rewrite Hh.
    + rewrite Forall_map. exact Hrest.
Qed.

(** C7: [search] has one outcome per state and input.  The outcome is
    decided by the descriptions, the index, the text and [k] alone: two
    worlds that agree on the two fields give the same output; and a call
    repeated in the world the first call left gives the same output and the
    same world again. *)
Theorem C7_search_deterministic (w1 w2 : world) (query : string) (k : Z) :
  scent_descriptions (self w1) = scent_descriptions (self w2) ->
  index (self w1) = index (self w2) ->
  fst (search query k w1) = fst (search query k w2) /\
  search query k (snd (search query k w1)) = search query k w1.
Proof.
  intros Hd Hi. split.
  - apply search_agree; assumption.
  - now rewrite search_frame.
Qed.

(** C8, as the code has it: on a store with an index, [search] with [k < 1]
    fails, with the [AssertionError] of the index's argument check; the
    exception is the outcome of the call, and the world is as it was. *)
Theorem C8_search_rejects_nonpositive_k (w : world) (ix : Faiss.IndexFlatL2)
        (query : string) (k : Z) :
  index (self w) = Some ix -> k < 1 ->
  search query k w = (inl AssertionError, w).
Proof. apply search_nonpositive. Qed.

(** C9: [search] is a pure read: whatever the state, the text and [k], and
    whether it returns or raises, the world after the call (the three fields
    of the object and the output) is the world before it. *)
Theorem C9_search_pure_read (w : world) (query : string) (k : Z) :
  snd (search query k w) = w.
Proof. apply search_frame. Qed.

(** C10, as the code has it: after [add_scents(D)] with a non-empty [D],
    which succeeds, the stored descriptions are [D] in input order, the
    index holds [len(D)] vectors, as many as there are descriptions, and for
    [1 <= k <= len(D)], [k < 100], every description that [search] returns
    is an element of [D]; when no squared distance, as the kernel computes
    it, reaches [FLT_MAX], every label that the index lookup produces is a
    0-based position of the description list. *)
Theorem C10_store_invariant (D : list string) (w : world) :
  D <> [] ->
  fst (add_scents D w) = inr tt /\
  scent_descriptions (self (after_add_scents D w)) = D /\
  exists ix,
    index (self (after_add_scents D w)) = Some ix /\
    Faiss.ntotal ix = length D /\
    length (scent_descriptions (self (after_add_scents D w))) = Faiss.ntotal ix /\
    (forall query k,
        1 <= k <= Z.of_nat (length D) ->
        k < Faiss.distance_compute_min_k_reservoir ->
        exists rs,
          search query k (after_add_scents D w) = (inr rs, after_add_scents D w) /\
          Forall (fun r => In (fst r) D) rs) /\
    (forall query k,
        1 <= k <= Z.of_nat (length D) ->
        k < Faiss.distance_compute_min_k_reservoir ->
        no_overflow query D ->
        exists distances indices,
          Faiss.search ix (model_encode [query]) k = inr (distances, indices) /\
          Forall (Forall (fun l => 0 <= l < Z.of_nat (length D))) indices).
Proof.
  intro Hne.
  split; [now rewrite add_scents_nonempty|].
  split; [apply after_add_scents_descriptions|].
  eexists. split; [apply after_add_scents_index, Hne|].
  assert (Hn : Faiss.ntotal {| Faiss.index_d := model_dim;
                               Faiss.index_xb := map embedding D |} = length D).
  { unfold Faiss.ntotal. cbn [Faiss.index_xb]. apply length_map. }
  split; [exact Hn|].
  split; [now rewrite after_add_scents_descriptions, Hn|].
  split.
  - intros query k Hk Hk100.
    pose proof (search_built D w query k Hne ltac:(lia)) as Hs.
    eexists. split; [exact Hs|].
    apply (f_equal fst) in Hs. apply search_In in Hs.
    now rewrite after_add_scents_descriptions in Hs.
  - intros query k Hk Hk100 Hb. rewrite faiss_search_query.
    cbn [Faiss.index_d]. rewrite Nat.eqb_refl. cbn [negb].
    destruct (k >? 0) eqn:E; [|rewrite Z.gtb_ltb in E; apply Z.ltb_ge in E; lia].
    destruct (100 <=? k) eqn:E100; [apply Z.leb_le in E100; lia|].
    cbn [negb]. do 2 eexists. split; [reflexivity|].
    constructor; [|constructor].
    rewrite knn_ranked.
    + cbn [Faiss.index_xb]. rewrite scan_hits_corpus, Forall_map.
      apply Forall_firstn_inv. rewrite Forall_forall. intros h Hh.
      apply (Permutation_in _ (push_all_perm _ _)) in Hh.
      rewrite app_nil_r in Hh.
      pose proof (corpus_hits_labels query D) as Hl.
      rewrite Forall_forall in Hl. apply Hl, Hh.
    + rewrite Hn. lia.
    + apply corpus_hits_bounded, Hb.
Qed.

End Facts.

(** * The class on concrete inputs *)

(** The example corpus, indexed by a fresh object under the encoder
    [embed_length] of dimension 1. *)
Lemma example_built :
  add_scents 1 embed_length scents (init default_model_name)
  = (inr tt,
     {| self := {| scent_descriptions := scents;
                   scent_vectors :=
                     Some {| shape := [5%nat; 1%nat];
                             rows := [[29]; [36]; [31]; [35]; [27]] |};
                   index :=
                     Some {| Faiss.index_d := 1;
                             Faiss.index_xb := [[29]; [36]; [31]; [35]; [27]] |} |};
        stdout := ["Initialized ScentSearch with model: all-MiniLM-L6-v2";
                   "Added 5 scents to index";
                   "Vector shape: (5, 1)"]%string |}).
Proof. vm_compute. reflexivity. Qed.

(** Under [embed_float] the distances from ["garlic"] are the floats 529,
    900, 625, 841 and 441: all below [FLT_MAX]. *)
Lemma example_no_overflow : no_overflow 1 embed_float "garlic" scents.
Proof.
  unfold no_overflow, scents.
  repeat (constructor; [vm_compute; reflexivity|]). constructor.
Qed.

(** Rounding makes ties: 4113 * 4113 = 16916769 is not a float32 and rounds
    to 16916768, the exact sum of the squares of 1892 and 3652. *)
Example ieee_rounding_tie :
  Faiss.fvec_L2sqr [f32_of_Z 0; f32_of_Z 0] [f32_of_Z 4113; f32_of_Z 0]
  = f32_of_Z 16916768 /\
  Faiss.fvec_L2sqr [f32_of_Z 0; f32_of_Z 0] [f32_of_Z 1892; f32_of_Z 3652]
  = f32_of_Z 16916768.
Proof. split; vm_compute; reflexivity. Qed.

(** *** The kernel of [ieee_faiss] on a vector and itself *)

Lemma f32_decode_finite (b : float32) :
  f32_finite b ->
  exists s, f32_decode b = S754_zero s
            \/ exists m e, f32_decode b = S754_finite s m e.
Proof.
  unfold f32_finite, f32_decode. intro H. cbv zeta.
  exists (Z.testbit b 31).
  destruct (Z.land (Z.shiftr b 23) 255 =? 255) eqn:E;
    [apply Z.eqb_eq in E; contradiction|].
  destruct (Z.land (Z.shiftr b 23) 255 =? 0).
  - destruct (Z.land b (2 ^ 23 - 1)); eauto.
  - eauto.
Qed.

Lemma ieee_sub_self (s : bool) (x : spec_float) :
  (x = S754_zero s \/ exists m e, x = S754_finite s m e) ->
  SFsub 24 128 x x = S754_zero false.
Proof.
  intros [-> | [m [e ->]]].
  - destruct s; reflexivity.
  - unfold SFsub. cbv zeta. now rewrite Z.sub_diag.
Qed.

Lemma ieee_L2sqr_self (x : list float32) :
  Forall f32_finite x -> ieee_L2sqr x x = S754_zero false.
Proof.
  unfold ieee_L2sqr. induction 1 as [|b x Hb _ IH]; [reflexivity|].
  cbn [combine fold_left fst snd]. cbv zeta.
  destruct (f32_decode_finite b Hb) as [s Hs].
  rewrite (ieee_sub_self s _ Hs). exact IH.
Qed.

Lemma ieee_kernel_self (x : list float32) :
  Forall f32_finite x -> Faiss.fvec_L2sqr x x = 0.
Proof.
  intro H. unfold Faiss.fvec_L2sqr. cbn [Faiss.L2sqr_kernel ieee_faiss].
  now rewrite (ieee_L2sqr_self x H).
Qed.

(** ** C1 *)

Lemma C1_search_returns_k_results_witness :
  scents <> [] /\ 1 <= 2 < Faiss.distance_compute_min_k_reservoir /\
  (fst (add_scents 1 embed_float scents (init default_model_name)) = inr tt /\
   exists rs,
     search 1 embed_float "garlic" 2
            (after_add_scents 1 embed_float scents (init default_model_name))
     = (inr rs, after_add_scents 1 embed_float scents (init default_model_name)) /\
     length rs = Z.to_nat 2).
Proof.
  split; [discriminate|]. split; [lia|].
  apply (C1_search_returns_k_results 1 embed_float scents
           (init default_model_name) "garlic" 2); [discriminate|lia].
Defined.

(** With [k = 7] on the corpus of five, [search] returns seven results, not
    the five of [min(k, n)]. *)
Lemma C1_not_clamped_counterexample :
  exists rs,
    search 1 embed_float "garlic" 7
           (after_add_scents 1 embed_float scents (init default_model_name))
    = (inr rs, after_add_scents 1 embed_float scents (init default_model_name)) /\
    length rs = 7%nat /\
    length rs <> Nat.min (Z.to_nat 7) (length scents).
Proof.
  eexists. split; [vm_compute; reflexivity|].
  split; [reflexivity|]. vm_compute. discriminate.
Qed.

(** ** C2 *)

Lemma C2_search_uninitialized_fails_witness :
  index (self (init default_model_name)) = None /\
  search 1 embed_length "garlic" 1 (init default_model_name)
  = (inl AttributeError, init default_model_name).
Proof.
  split; [reflexivity|].
  apply (C2_search_uninitialized_fails 1 embed_length
           (init default_model_name) "garlic" 1).
  reflexivity.
Defined.

(** On a fresh object the exception of [search] is not [EmptyCorpusError]. *)
Lemma C2_not_EmptyCorpusError_counterexample :
  fst (search 1 embed_length "garlic" 1 (init default_model_name))
  <> inl EmptyCorpusError.
Proof. vm_compute. discriminate. Qed.

(** ** C3 *)

(** A build with the empty sequence on the built example store does not
    raise [EmptyCorpusError], and the object it leaves is not the one it
    found: the descriptions are gone while the index still holds the five
    vectors. *)
Lemma C3_failed_build_overwrites_counterexample :
  let w := after_add_scents 1 embed_length scents (init default_model_name) in
  fst (add_scents 1 embed_length [] w) <> inl EmptyCorpusError /\
  self (snd (add_scents 1 embed_length [] w)) <> self w /\
  scent_descriptions (self (snd (add_scents 1 embed_length [] w))) = [] /\
  index (self (snd (add_scents 1 embed_length [] w))) = index (self w).
Proof.
  vm_compute. repeat split; discriminate.
Qed.

(** ** C4 *)

Lemma C4_search_ranked_witness :
  scents <> [] /\ 1 <= 2 <= Z.of_nat (length scents) /\
  2 < Faiss.distance_compute_min_k_reservoir /\
  no_overflow 1 embed_float "garlic" scents /\
  exists rs,
    search 1 embed_float "garlic" 2
           (after_add_scents 1 embed_float scents (init default_model_name))
    = (inr rs, after_add_scents 1 embed_float scents (init default_model_name)) /\
    ranked_results (corpus_hits 1 embed_float "garlic" scents) scents 2 rs.
Proof.
  split; [discriminate|]. split; [simpl; lia|]. split; [lia|].
  split; [exact example_no_overflow|].
  apply (C4_search_ranked 1 embed_float scents (init default_model_name)
           "garlic" 2);
    [discriminate|simpl; lia|lia|exact example_no_overflow].
Defined.

(** With [k = 7] on the corpus of five the results are not a ranking of the
    corpus: the two last pair the last description with [FLT_MAX], which is
    not its distance to the query, the float 441.  A distance that reaches
    [FLT_MAX] has the same effect within the corpus size: the square of
    2^64 is the infinity, the item never enters the heap, and the result
    pairs it with [FLT_MAX]. *)
Lemma C4_padding_counterexample :
  (exists rs,
      search 1 embed_float "garlic" 7
             (after_add_scents 1 embed_float scents (init default_model_name))
      = (inr rs, after_add_scents 1 embed_float scents (init default_model_name)) /\
      nth 6 rs (EmptyString, 0) = ("garlic pungent wasabi spicy"%string, FLT_MAX) /\
      distance_to 1 embed_float "garlic" "garlic pungent wasabi spicy"
      = f32_of_Z 441 /\
      ~ ranked_results (corpus_hits 1 embed_float "garlic" scents) scents 7 rs) /\
  (exists rs,
      search 1 embed_far "x" 1
             (after_add_scents 1 embed_far ["far"%string] (init default_model_name))
      = (inr rs,
         after_add_scents 1 embed_far ["far"%string] (init default_model_name)) /\
      rs = [("far"%string, FLT_MAX)] /\
      distance_to 1 embed_far "x" "far" = 255 * 2 ^ 23 /\
      ~ ranked_results (corpus_hits 1 embed_far "x" ["far"%string])
          ["far"%string] 1 rs).
Proof.
  split.
  - eexists. split; [vm_compute; reflexivity|].
    split; [reflexivity|]. split; [vm_compute; reflexivity|].
    intros [ranking [Hp [_ Hrs]]].
    apply Permutation_length in Hp. apply (f_equal (@length _)) in Hrs.
    rewrite length_map, length_firstn, Hp in Hrs.
    vm_compute in Hrs. discriminate.
  - eexists. split; [vm_compute; reflexivity|].
    split; [reflexivity|]. split; [vm_compute; reflexivity|].
    intros [ranking [Hp [_ Hrs]]].
    assert (Hc : corpus_hits 1 embed_far "x" ["far"%string] = [(255 * 2 ^ 23, 0)])
      by (vm_compute; reflexivity).
    rewrite Hc in Hp.
    apply Permutation_sym, Permutation_length_1_inv in Hp. subst ranking.
    vm_compute in Hrs. discriminate.
Qed.

(** ** C5 *)

Lemma C5_build_replaces_witness :
  let w2 := after_searches 1 embed_float [("mint"%string, 1)]
              (after_add_scents 1 embed_float scents
                 (after_add_scents 1 embed_float ["rose"; "mint"]%string
                    (init default_model_name))) in
  (forall s, In s ["rose"; "mint"]%string -> ~ In s scents) /\
  (forall rs,
      fst (search 1 embed_float "garlic" 2 w2) = inr rs ->
      Forall (fun r => In (fst r) scents /\ ~ In (fst r) ["rose"; "mint"]%string)
             rs) /\
  self w2 = {| scent_descriptions := scents;
               scent_vectors := Some (model_encode 1 embed_float scents);
               index := Some {| Faiss.index_d := 1;
                                Faiss.index_xb :=
                                  map (embedding 1 embed_float) scents |} |} /\
  exists rs, fst (search 1 embed_float "garlic" 2 w2) = inr rs.
Proof.
  intro w2.
  assert (Hdisj : forall s, In s ["rose"; "mint"]%string -> ~ In s scents).
  { intros s [<- | [<- | []]] H; simpl in H;
      repeat (destruct H as [H | H]; [discriminate|]); exact H. }
  split; [exact Hdisj|].
  destruct (C5_build_replaces 1 embed_float ["rose"; "mint"]%string scents
              (init default_model_name) [("mint"%string, 1)] "garlic" 2 Hdisj)
    as [Hresults [Hstore Hreturns]].
  split; [exact Hresults|].
  split; [apply Hstore; discriminate|].
  apply Hreturns; [discriminate|lia].
Defined.

(** ** C6 *)

Lemma C6_exact_match_witness :
  (forall x, Forall f32_finite x -> Faiss.fvec_L2sqr x x = 0) /\
  Forall f32_finite (embedding 1 embed_float "orange fresh citrus tangy sweet") /\
  nth_error scents 2 = Some "orange fresh citrus tangy sweet"%string /\
  1 <= 3 < Faiss.distance_compute_min_k_reservoir /\
  exists ix v,
    index (self (after_add_scents 1 embed_float scents (init default_model_name)))
    = Some ix /\
    nth_error (Faiss.index_xb ix) 2 = Some v /\
    Faiss.fvec_L2sqr (embedding 1 embed_float "orange fresh citrus tangy sweet") v
    = 0 /\
    exists s rest,
      search 1 embed_float "orange fresh citrus tangy sweet" 3
             (after_add_scents 1 embed_float scents (init default_model_name))
      = (inr ((s, 0) :: rest),
         after_add_scents 1 embed_float scents (init default_model_name)) /\
      Forall (fun r => 0 <= snd r) rest.
Proof.
  assert (Hfin : Forall f32_finite
                   (embedding 1 embed_float "orange fresh citrus tangy sweet")).
  { constructor; [|constructor]. vm_compute. discriminate. }
  split; [exact ieee_kernel_self|]. split; [exact Hfin|].
  split; [reflexivity|]. split; [lia|].
  apply (C6_exact_match 1 embed_float scents (init default_model_name)
           "orange fresh citrus tangy sweet" 3 2 ieee_kernel_self Hfin);
    [reflexivity|lia].
Defined.

(** An encoder that gives an infinite component: the distance of the stored
    vector to the identical query vector is not 0 but a NaN (the difference
    of two infinities), the item never enters the heap, and the one result
    pairs the description with [FLT_MAX]. *)
Lemma C6_infinite_component_counterexample :
  nth_error ["a"%string] 0 = Some "a"%string /\
  distance_to 1 embed_inf "a" "a" = 255 * 2 ^ 23 + 2 ^ 22 /\
  distance_to 1 embed_inf "a" "a" <> 0 /\
  search 1 embed_inf "a" 1
         (after_add_scents 1 embed_inf ["a"%string] (init default_model_name))
  = (inr [("a"%string, FLT_MAX)],
     after_add_scents 1 embed_inf ["a"%string] (init default_model_name)).
Proof.
  split; [reflexivity|]. split; [vm_compute; reflexivity|].
  split; [vm_compute; discriminate|]. vm_compute. reflexivity.
Qed.

(** ** C7 *)

Lemma C7_search_deterministic_witness :
  let w1 := after_add_scents 1 embed_length scents (init default_model_name) in
  let w2 := after_add_scents 1 embed_length scents
              (after_add_scents 1 embed_length ["rose"]%string (init "other")) in
  scent_descriptions (self w1) = scent_descriptions (self w2) /\
  index (self w1) = index (self w2) /\
  (fst (search 1 embed_length "garlic" 2 w1)
   = fst (search 1 embed_length "garlic" 2 w2) /\
   search 1 embed_length "garlic" 2 (snd (search 1 embed_length "garlic" 2 w1))
   = search 1 embed_length "garlic" 2 w1).
Proof.
  intros w1 w2.
  split; [reflexivity|]. split; [reflexivity|].
  apply (C7_search_deterministic 1 embed_length w1 w2 "garlic" 2); reflexivity.
Defined.

(** ** C8 *)

Lemma C8_search_rejects_nonpositive_k_witness :
  index (self (after_add_scents 1 embed_length scents (init default_model_name)))
  = Some {| Faiss.index_d := 1;
            Faiss.index_xb := [[29]; [36]; [31]; [35]; [27]] |} /\
  0 < 1 /\
  search 1 embed_length "garlic" 0
         (after_add_scents 1 embed_length scents (init default_model_name))
  = (inl AssertionError,
     after_add_scents 1 embed_length scents (init default_model_name)).
Proof.
  split; [reflexivity|]. split; [lia|].
  apply (C8_search_rejects_nonpositive_k 1 embed_length
           (after_add_scents 1 embed_length scents (init default_model_name))
           {| Faiss.index_d := 1;
              Faiss.index_xb := [[29]; [36]; [31]; [35]; [27]] |}
           "garlic" 0); [reflexivity|lia].
Defined.

(** On the built example store the exception of [search] with [k = 0] is
    not [InvalidArgumentError]. *)
Lemma C8_not_InvalidArgumentError_counterexample :
  fst (search 1 embed_length "garlic" 0
         (after_add_scents 1 embed_length scents (init default_model_name)))
  <> inl InvalidArgumentError.
Proof. vm_compute. discriminate. Qed.

(** ** C10 *)

Lemma C10_store_invariant_witness :
  let w' := after_add_scents 1 embed_float scents (init default_model_name) in
  scents <> [] /\
  (fst (add_scents 1 embed_float scents (init default_model_name)) = inr tt /\
   scent_descriptions (self w') = scents /\
   exists ix,
     index (self w') = Some ix /\
     Faiss.ntotal ix = length scents /\
     length (scent_descriptions (self w')) = Faiss.ntotal ix /\
     (forall query k,
         1 <= k <= Z.of_nat (length scents) ->
         k < Faiss.distance_compute_min_k_reservoir ->
         exists rs,
           search 1 embed_float query k w' = (inr rs, w') /\
           Forall (fun r => In (fst r) scents) rs) /\
     (forall query k,
         1 <= k <= Z.of_nat (length scents) ->
         k < Faiss.distance_compute_min_k_reservoir ->
         no_overflow 1 embed_float query scents ->
         exists distances indices,
           Faiss.search ix (model_encode 1 embed_float [query]) k
           = inr (distances, indices) /\
           Forall (Forall (fun l => 0 <= l < Z.of_nat (length scents))) indices)).
Proof.
  intro w'. split; [discriminate|].
  apply (C10_store_invariant 1 embed_float scents (init default_model_name)).
  discriminate.
Defined.

(** Under the encoder [embed_far] the corpus of the one text ["far"] is
    indexed with success, and the lookup of ["x"] with [k = 1], within the
    corpus size, produces the label -1, which is no position of the
    description list: the squared distance is the infinity. *)
Lemma C10_label_counterexample :
  let w' := after_add_scents 1 embed_far ["far"%string] (init default_model_name) in
  fst (add_scents 1 embed_far ["far"%string] (init default_model_name)) = inr tt /\
  1 <= 1 <= Z.of_nat (length ["far"%string]) /\
  exists ix distances indices,
    index (self w') = Some ix /\
    Faiss.search ix (model_encode 1 embed_far ["x"%string]) 1
    = inr (distances, indices) /\
    ~ Forall (Forall (fun l => 0 <= l < Z.of_nat (length ["far"%string]))) indices.
Proof.
  split; [reflexivity|]. split; [simpl; lia|].
  eexists. exists [[FLT_MAX]], [[-1]].
  split; [vm_compute; reflexivity|]. split; [vm_compute; reflexivity|].
  intro H. apply Forall_inv in H. apply Forall_inv in H. lia.
Qed.

(** * Further properties of the class *)

Lemma hit_le_fst (a b : Faiss.hit) : hit_le a b -> fst a <= fst b.
Proof. unfold hit_le. lia. Qed.

Lemma sorted_hits_distances (hits : list Faiss.hit) :
  StronglySorted hit_le hits -> StronglySorted Z.le (map fst hits).
Proof.
  induction 1 as [|h hits Hs IH Hh]; simpl; constructor.
  - exact IH.
  - rewrite Forall_map. eapply Forall_impl; [|exact Hh].
    intros b Hb. apply hit_le_fst, Hb.
Qed.

Lemma knn_sorted {lib : Faiss.library} (ix : Faiss.IndexFlatL2) (k : Z) (x : list float32) :
  0 < k -> StronglySorted hit_le (Faiss.knn ix k x).
Proof.
  intro Hk. rewrite knn_firstn by assumption.
  apply StronglySorted_firstn, push_all_sorted, heapify_sorted.
Qed.

Lemma map_snd_result_of_hit (D : list string) (hits : list Faiss.hit) :
  map snd (map (result_of_hit D) hits) = map fst hits.
Proof. rewrite map_map. apply map_ext. reflexivity. Qed.

Lemma firstn_repeat {A} (a : A) (n m : nat) :
  firstn n (repeat a m) = repeat a (Nat.min n m).
Proof.
  revert m. induction n as [|n IH]; intros [|m]; simpl; try reflexivity.
  now rewrite IH.
Qed.

(** The hits for a smaller [k] are the first hits for a larger one. *)
Lemma knn_prefix {lib : Faiss.library} (ix : Faiss.IndexFlatL2) (k1 k2 : Z) (x : list float32) :
  0 < k1 <= k2 ->
  Faiss.knn ix k1 x = firstn (Z.to_nat k1) (Faiss.knn ix k2 x).
Proof.
  intro Hk. rewrite !knn_firstn by lia.
  rewrite firstn_firstn.
  replace (Nat.min (Z.to_nat k1) (Z.to_nat k2)) with (Z.to_nat k1) by lia.
  rewrite <- (firstn_push_all _ (Faiss.heap_heapify (Z.to_nat k2))).
  unfold Faiss.heap_heapify. rewrite firstn_repeat.
  replace (Nat.min (Z.to_nat k1) (Z.to_nat k2)) with (Z.to_nat k1) by lia.
  reflexivity.
Qed.

Lemma result_of_hit_neutral (D : list string) :
  D <> [] ->
  result_of_hit D Faiss.neutral = (last D EmptyString, FLT_MAX).
Proof.
  intro Hne. unfold result_of_hit, Faiss.neutral. cbn [fst snd].
  now rewrite (py_getitem_last D EmptyString Hne).
Qed.

Lemma NoDup_firstn {A} (k : nat) (l : list A) : NoDup l -> NoDup (firstn k l).
Proof.
  intro H. revert k. induction H as [|a l Ha H IH]; intros [|k]; simpl;
    try constructor.
  - intro Hin. apply Ha. eapply In_firstn_inv, Hin.
  - apply IH.
Qed.

Lemma embedding_length (dim : nat) (embed : string -> nat -> float32) (s : string) :
  length (embedding dim embed s) = dim.
Proof. unfold embedding. now rewrite length_map, length_seq. Qed.

Section MoreFacts.

Context {faiss : Faiss.library}.
Variable model_dim : nat.
Variable model_embed : string -> nat -> float32.

Local Abbreviation embedding := (embedding model_dim model_embed).
Local Abbreviation model_encode := (model_encode model_dim model_embed).
Local Abbreviation add_scents := (add_scents model_dim model_embed).
Local Abbreviation search := (search model_dim model_embed).
Local Abbreviation after_add_scents := (after_add_scents model_dim model_embed).
Local Abbreviation distance_to := (distance_to model_dim model_embed).
Local Abbreviation corpus_hits := (corpus_hits model_dim model_embed).
Local Abbreviation no_overflow := (no_overflow model_dim model_embed).
Local Abbreviation after_call := (after_call model_dim model_embed).
Local Abbreviation after_calls := (after_calls model_dim model_embed).
Local Abbreviation index_of := (index_of model_dim model_embed).

(** ** Order and size of the results *)

Lemma corpus_hits_length (query : string) (D : list string) :
  length (corpus_hits query D) = length D.
Proof. unfold_corpus_hits. now rewrite length_map, length_seq. Qed.

(** X1: on a built store, for every [k] from 1 to 99, the distances that
    [search] returns are non-negative and in non-decreasing order, the
    padding entries of a [k] above the corpus size included. *)
Theorem search_distances_ascending (D : list string) (w : world)
        (query : string) (k : Z) :
  D <> [] -> 1 <= k < Faiss.distance_compute_min_k_reservoir ->
  exists rs,
    search query k (after_add_scents D w) = (inr rs, after_add_scents D w) /\
    StronglySorted Z.le (map snd rs) /\
    Forall (fun r => 0 <= snd r) rs.
Proof.
  intros Hne Hk. eexists. split; [apply search_built; [exact Hne|lia]|]. split.
  - rewrite map_snd_result_of_hit. apply sorted_hits_distances, knn_sorted. lia.
  - rewrite Forall_map. eapply Forall_impl; [|apply knn_labels; lia].
    intros h Hh. apply Hh.
Qed.

(** X2: asking for more results does not change the first ones: for
    [1 <= k1 <= k2 < 100] the results for [k1] are the first [k1] results
    for [k2]. *)
Theorem search_prefix (D : list string) (w : world) (query : string) (k1 k2 : Z) :
  D <> [] -> 1 <= k1 <= k2 -> k2 < Faiss.distance_compute_min_k_reservoir ->
  exists rs1 rs2,
    search query k1 (after_add_scents D w) = (inr rs1, after_add_scents D w) /\
    search query k2 (after_add_scents D w) = (inr rs2, after_add_scents D w) /\
    rs1 = firstn (Z.to_nat k1) rs2.
Proof.
  intros Hne Hk Hk100. do 2 eexists.
  split; [apply search_built; [exact Hne|lia]|].
  split; [apply search_built; [exact Hne|lia]|].
  rewrite (knn_prefix _ k1 k2) by lia. symmetry. apply firstn_map.
Qed.

(** X3: with [k] at or above the corpus size [n] and below 100 (and no
    distance, as the kernel computes it, reaching [FLT_MAX]), the results
    are the whole corpus ranked by computed distance and insertion id,
    followed by [k - n] copies of the last description of the corpus paired
    with [FLT_MAX]. *)
Theorem search_beyond_corpus (D : list string) (w : world) (query : string) (k : Z) :
  D <> [] -> Z.of_nat (length D) <= k ->
  k < Faiss.distance_compute_min_k_reservoir -> no_overflow query D ->
  exists ranked,
    ranked_results (corpus_hits query D) D (Z.of_nat (length D)) ranked /\
    length ranked = length D /\
    search query k (after_add_scents D w)
    = (inr (ranked ++ repeat (last D EmptyString, FLT_MAX)
                             (Z.to_nat k - length D)),
       after_add_scents D w).
Proof.
  intros Hne Hk Hk100 Hb.
  assert (Hn : (0 < length D)%nat) by (destruct D; simpl; [congruence|lia]).
  set (ranking := push_all (corpus_hits query D) []).
  assert (Hlen : length ranking = length D).
  { unfold ranking. rewrite push_all_length, corpus_hits_length. simpl. lia. }
  assert (Hmap : map (result_of_hit D) ranking
                 = map (fun h => (nth (Z.to_nat (snd h)) D EmptyString, fst h))
                       ranking).
  { apply map_ext_in. intros h Hh. apply result_of_hit_nth.
    apply (Permutation_in _ (push_all_perm _ _)) in Hh.
    rewrite app_nil_r in Hh.
    pose proof (corpus_hits_labels model_dim model_embed query D) as Hl.
    rewrite Forall_forall in Hl. apply Hl, Hh. }
  exists (map (result_of_hit D) ranking). split; [|split].
  - exists ranking. split; [|split].
    + unfold ranking. rewrite push_all_perm. now rewrite app_nil_r.
    + apply push_all_sorted. constructor.
    + rewrite Nat2Z.id, <- Hlen, firstn_all. exact Hmap.
  - now rewrite length_map.
  - rewrite search_built by (assumption || lia). f_equal. f_equal.
    rewrite knn_firstn by lia. cbn [Faiss.index_xb].
    rewrite scan_hits_corpus. unfold Faiss.heap_heapify.
    rewrite (push_all_neutral _ [] (Z.to_nat k))
      by (rewrite <- scan_hits_corpus; clear - Hb;
          apply corpus_hits_bounded in Hb; generalize 0;
          induction Hb; intro j; simpl; constructor; auto).
    fold ranking.
    rewrite firstn_app, firstn_all2 by lia.
    rewrite firstn_repeat, Hlen.
    replace (Nat.min (Z.to_nat k - length D) (Z.to_nat k))
      with (Z.to_nat k - length D)%nat by lia.
    rewrite map_app, map_repeat, result_of_hit_neutral by exact Hne.
    reflexivity.
Qed.

(** ** Which items are returned *)

Lemma corpus_hits_In (query : string) (D : list string) (h : Faiss.hit) :
  In h (corpus_hits query D) <->
  exists i, (i < length D)%nat /\
            h = (distance_to query (nth i D EmptyString), Z.of_nat i).
Proof.
  unfold_corpus_hits. rewrite in_map_iff. split.
  - intros [i [<- Hi]]. exists i. apply in_seq in Hi. split; [lia|reflexivity].
  - intros [i [Hi ->]]. exists i. split; [reflexivity|apply in_seq; lia].
Qed.

Lemma corpus_hits_positions (query : string) (D : list string) :
  map (fun h => Z.to_nat (snd h)) (corpus_hits query D) = seq 0 (length D).
Proof.
  unfold_corpus_hits. rewrite map_map. cbn [snd].
  rewrite <- (map_id (seq 0 (length D))) at 2.
  apply map_ext. intro i. apply Nat2Z.id.
Qed.

(** X4: the default call, with [k = 1], returns the nearest item by the
    distances that the kernel computes (none reaching [FLT_MAX]): the one
    item returned is a description of the corpus with its own computed
    distance, no item of the corpus has a smaller one, and every item
    before it in the corpus has a strictly larger one (among the nearest,
    the first inserted wins). *)
Theorem search_default_nearest (D : list string) (w : world) (query : string) :
  D <> [] -> no_overflow query D ->
  exists i,
    (i < length D)%nat /\
    search query 1 (after_add_scents D w)
    = (inr [(nth i D EmptyString, distance_to query (nth i D EmptyString))],
       after_add_scents D w) /\
    (forall j, (j < length D)%nat ->
               distance_to query (nth i D EmptyString)
               <= distance_to query (nth j D EmptyString)) /\
    (forall j, (j < i)%nat ->
               distance_to query (nth i D EmptyString)
               < distance_to query (nth j D EmptyString)).
Proof.
  intros Hne Hb.
  assert (Hn : (0 < length D)%nat) by (destruct D; simpl; [congruence|lia]).
  pose proof (push_all_perm (corpus_hits query D) []) as Hp.
  rewrite app_nil_r in Hp.
  pose proof (push_all_sorted (corpus_hits query D) [] (SSorted_nil _)) as Hs.
  pose proof (push_all_length (corpus_hits query D) []) as Hlen.
  destruct (push_all (corpus_hits query D) []) as [|h tl] eqn:E.
  { rewrite corpus_hits_length in Hlen. simpl in Hlen. lia. }
  assert (Hh : In h (corpus_hits query D))
    by (apply (Permutation_in _ Hp); now left).
  apply corpus_hits_In in Hh. destruct Hh as [i [Hi Hh]].
  assert (Hle : forall j, (j < length D)%nat ->
                  hit_le h (distance_to query (nth j D EmptyString), Z.of_nat j)).
  { intros j Hj.
    assert (Hin : In (distance_to query (nth j D EmptyString), Z.of_nat j)
                     (h :: tl)).
    { apply (Permutation_in _ (Permutation_sym Hp)).
      apply corpus_hits_In. exists j. split; [exact Hj|reflexivity]. }
    destruct Hin as [<- | Hin]; [apply hit_le_refl|].
    apply StronglySorted_inv in Hs. destruct Hs as [_ Hall].
    rewrite Forall_forall in Hall. apply Hall, Hin. }
  exists i. split; [exact Hi|]. split; [|split].
  - rewrite search_built by (assumption || lia).
    rewrite knn_ranked.
    + cbn [Faiss.index_xb]. rewrite scan_hits_corpus, E. cbn [Z.to_nat].
      change (Pos.to_nat 1) with 1%nat. cbn [firstn map].
      rewrite result_of_hit_nth by (rewrite Hh; simpl; lia).
      rewrite Hh. cbn [fst snd]. now rewrite Nat2Z.id.
    + unfold Faiss.ntotal. cbn [Faiss.index_xb]. rewrite length_map. lia.
    + apply corpus_hits_bounded, Hb.
  - intros j Hj. specialize (Hle j Hj). rewrite Hh in Hle.
    unfold hit_le in Hle. simpl in Hle. lia.
  - intros j Hj. specialize (Hle j ltac:(lia)). rewrite Hh in Hle.
    unfold hit_le in Hle. simpl in Hle. lia.
Qed.

(** X5: for [1 <= k <= n], [k < 100] (and no computed distance reaching
    [FLT_MAX]) the [k] results are [k] different items of the corpus, each
    description paired with its own squared distance to the query as the
    kernel computes it. *)
Theorem search_distinct_items (D : list string) (w : world) (query : string)
        (k : Z) :
  D <> [] -> 1 <= k <= Z.of_nat (length D) ->
  k < Faiss.distance_compute_min_k_reservoir -> no_overflow query D ->
  exists positions : list nat,
    NoDup positions /\
    length positions = Z.to_nat k /\
    Forall (fun i => (i < length D)%nat) positions /\
    search query k (after_add_scents D w)
    = (inr (map (fun i => (nth i D EmptyString,
                           distance_to query (nth i D EmptyString)))
                positions),
       after_add_scents D w).
Proof.
  intros Hne Hk Hk100 Hb.
  set (ranking := push_all (corpus_hits query D) []).
  assert (Hp : Permutation ranking (corpus_hits query D)).
  { unfold ranking. rewrite push_all_perm. now rewrite app_nil_r. }
  assert (Hin : forall h, In h (firstn (Z.to_nat k) ranking) ->
                  exists i, (i < length D)%nat /\
                    h = (distance_to query (nth i D EmptyString), Z.of_nat i)).
  { intros h Hh. apply In_firstn_inv in Hh.
    apply corpus_hits_In, (Permutation_in _ Hp), Hh. }
  exists (map (fun h => Z.to_nat (snd h)) (firstn (Z.to_nat k) ranking)).
  split; [|split; [|split]].
  - rewrite <- firstn_map. apply NoDup_firstn.
    apply (Permutation_NoDup
             (Permutation_sym (Permutation_map (fun h => Z.to_nat (snd h)) Hp))).
    rewrite corpus_hits_positions. apply seq_NoDup.
  - rewrite length_map, length_firstn.
    assert (length ranking = length D).
    { rewrite (Permutation_length Hp). apply corpus_hits_length. }
    lia.
  - rewrite Forall_map, Forall_forall. intros h Hh.
    destruct (Hin h Hh) as [i [Hi ->]]. cbn [snd]. now rewrite Nat2Z.id.
  - rewrite search_built by (assumption || lia). f_equal. f_equal.
    rewrite knn_ranked.
    + cbn [Faiss.index_xb]. rewrite scan_hits_corpus. fold ranking.
      rewrite map_map. apply map_ext_in. intros h Hh.
      destruct (Hin h Hh) as [i [Hi ->]].
      rewrite result_of_hit_nth by (simpl; lia).
      cbn [fst snd]. now rewrite Nat2Z.id.
    + unfold Faiss.ntotal. cbn [Faiss.index_xb]. rewrite length_map. lia.
    + apply corpus_hits_bounded, Hb.
Qed.

(** X6: when the query is a description of the corpus, the kernel computes
    the distance 0 between its embedding and itself, and no other
    description of the corpus is at computed distance 0 from it, the first
    result of [search], for any [k] from 1 to 99, is that description with
    distance 0. *)
Theorem search_exact_match_first (D : list string) (w : world) (query : string)
        (k : Z) :
  In query D -> 1 <= k < Faiss.distance_compute_min_k_reservoir ->
  distance_to query query = 0 ->
  (forall s, In s D -> distance_to query s = 0 -> s = query) ->
  exists rest,
    search query k (after_add_scents D w)
    = (inr ((query, 0) :: rest), after_add_scents D w).
Proof.
  intros Hq Hk Hself Huniq.
  assert (Hne : D <> []) by (intros ->; destruct Hq).
  destruct (In_nth_error _ _ Hq) as [i Hi].
  assert (Hi' : (i < length D)%nat) by (apply nth_error_Some; congruence).
  destruct (knn_head_zero {| Faiss.index_d := model_dim;
                             Faiss.index_xb := map embedding D |}
                          k (embedding query) (Z.of_nat i))
    as [h [rest [Hknn [Hh _]]]]; [lia| |].
  - cbn [Faiss.index_xb]. rewrite scan_hits_corpus.
    apply corpus_hits_In. exists i. split; [exact Hi'|].
    f_equal. erewrite nth_error_nth by exact Hi. symmetry. exact Hself.
  - pose proof (knn_hits {| Faiss.index_d := model_dim;
                            Faiss.index_xb := map embedding D |}
                         k (embedding query) ltac:(lia)) as Hhits.
    rewrite Hknn in Hhits. apply Forall_inv in Hhits.
    cbn [Faiss.index_xb] in Hhits. rewrite scan_hits_corpus in Hhits.
    destruct Hhits as [Hneutral | Hin].
    { rewrite Hneutral in Hh. discriminate Hh. }
    apply corpus_hits_In in Hin. destruct Hin as [j [Hj Hhj]].
    rewrite Hhj in Hh. cbn [fst] in Hh.
    assert (Hs : nth j D EmptyString = query)
      by (apply Huniq; [now apply nth_In|exact Hh]).
    exists (map (result_of_hit D) rest).
    rewrite search_built by (assumption || lia).
    rewrite Hknn, Hhj. cbn [map].
    rewrite result_of_hit_nth by (simpl; lia). cbn [fst snd].
    rewrite Nat2Z.id, Hh, Hs. reflexivity.
Qed.

(** ** The object over a run of calls *)

Lemma after_call_descriptions (c : call) (w : world) :
  scent_descriptions (self (after_call c w))
  = match c with
    | call_add_scents D => D
    | call_search _ _ => scent_descriptions (self w)
    end.
Proof.
  destruct c as [D|query k]; simpl.
  - apply after_add_scents_descriptions.
  - now rewrite search_frame.
Qed.

Lemma after_call_index (c : call) (w : world) :
  index (self (after_call c w))
  = match c with
    | call_add_scents ((_ :: _) as D) => Some (index_of D)
    | _ => index (self w)
    end.
Proof.
  destruct c as [[|s D]|query k]; simpl.
  - reflexivity.
  - rewrite add_scents_nonempty by discriminate. reflexivity.
  - now rewrite search_frame.
Qed.

Lemma after_calls_store (calls : list call) :
  forall (w : world) (o : option (list string)),
    index (self w) = option_map index_of o ->
    scent_descriptions (self (after_calls calls w))
    = last_added calls (scent_descriptions (self w)) /\
    index (self (after_calls calls w))
    = option_map index_of (last_indexed calls o).
Proof.
  induction calls as [|c calls IH]; intros w o Ho; [now split|].
  change (after_calls (c :: calls) w) with (after_calls calls (after_call c w)).
  destruct c as [[|s D]|query k]; cbn [last_added last_indexed].
  - destruct (IH (after_call (call_add_scents []) w) o) as [Hd Hi].
    + now rewrite after_call_index.
    + rewrite after_call_descriptions in Hd. now split.
  - destruct (IH (after_call (call_add_scents (s :: D)) w) (Some (s :: D)))
      as [Hd Hi].
    + now rewrite after_call_index.
    + rewrite after_call_descriptions in Hd. now split.
  - destruct (IH (after_call (call_search query k) w) o) as [Hd Hi].
    + now rewrite after_call_index.
    + rewrite after_call_descriptions in Hd. now split.
Qed.

Lemma last_indexed_last_added (calls : list call) :
  forall (d : list string) (o : option (list string)),
    (d <> [] -> o = Some d) ->
    last_added calls d <> [] ->
    last_indexed calls o = Some (last_added calls d).
Proof.
  induction calls as [|c calls IH]; intros d o Hd Hne; simpl in *.
  - now apply Hd.
  - destruct c as [[|s D]|query k].
    + apply IH; [congruence|exact Hne].
    + apply IH; [reflexivity|exact Hne].
    + apply IH; assumption.
Qed.

(** With an index of the model's dimension and no description, a query for
    fewer than 100 results raises [IndexError] at the first result. *)
Lemma search_no_descriptions (query : string) (k : Z) (w : world)
      (ix : Faiss.IndexFlatL2) :
  index (self w) = Some ix ->
  Faiss.index_d ix = model_dim ->
  scent_descriptions (self w) = [] ->
  0 < k < Faiss.distance_compute_min_k_reservoir ->
  search query k w = (inl IndexError, w).
Proof.
  intros H Hd Hnil Hk.
  unfold_search. rewrite bind_get_self. unfold bind at 1.
  rewrite H. cbn [attr_of ret]. rewrite faiss_search_query.
  rewrite Hd, Nat.eqb_refl. cbn [negb].
  destruct (k >? 0) eqn:E; [|rewrite Z.gtb_ltb in E; apply Z.ltb_ge in E; lia].
  destruct (100 <=? k) eqn:E100; [apply Z.leb_le in E100; lia|].
  cbn [negb]. rewrite bind_lift_inr. cbn [fst snd].
  rewrite py_getitem_0, bind_lift_inr, length_map.
  pose proof (knn_length ix k (embedding query) ltac:(lia)) as Hlen.
  destruct (Faiss.knn ix k (embedding query)) as [|h hits]; [simpl in Hlen; lia|].
  cbn [length seq map format_results].
  rewrite py_getitem_0, bind_lift_inr. cbv beta.
  change (Z.of_nat 0) with 0.
  rewrite py_getitem_0, bind_lift_inr. cbv beta.
  rewrite py_getitem_0, bind_lift_inr. cbv beta.
  rewrite py_getitem_0, bind_lift_inr, bind_get_self. cbv beta.
  rewrite Hnil, py_getitem_nil. reflexivity.
Qed.

(** X7: on an object used from its creation through any run of calls of
    [add_scents] and [search], whatever their outcomes, the stored
    descriptions are the argument of the last [add_scents] call (empty
    before the first), and the index is the one built from the last
    non-empty argument ([None] before the first): a failing build has
    replaced the descriptions and kept the index. *)
Theorem store_after_calls (model_name : string) (calls : list call) :
  scent_descriptions (self (after_calls calls (init model_name)))
  = last_added calls [] /\
  index (self (after_calls calls (init model_name)))
  = option_map index_of (last_indexed calls None).
Proof. apply (after_calls_store calls (init model_name) None). reflexivity. Qed.

(** X8: on such an object a query with [k] from 1 to 99 returns exactly
    when the last [add_scents] call had a non-empty argument [D], and then
    returns [k] results with descriptions of [D]; before any successful
    build it raises [AttributeError], and after a build that failed on a
    store built earlier it raises [IndexError].  In every case the world is
    as it was. *)
Theorem search_after_calls (model_name : string) (calls : list call)
        (query : string) (k : Z) :
  1 <= k < Faiss.distance_compute_min_k_reservoir ->
  let w := after_calls calls (init model_name) in
  match last_added calls [], last_indexed calls None with
  | (_ :: _) as D, _ =>
      exists rs, search query k w = (inr rs, w) /\
                 length rs = Z.to_nat k /\
                 Forall (fun r => In (fst r) D) rs
  | [], None => search query k w = (inl AttributeError, w)
  | [], Some _ => search query k w = (inl IndexError, w)
  end.
Proof.
  intros Hk w.
  destruct (after_calls_store calls (init model_name) None eq_refl) as [Hd Hi].
  fold w in Hd, Hi. change (scent_descriptions (self (init model_name)))
    with (@nil string) in Hd.
  destruct (last_added calls []) as [|s D] eqn:Hlast.
  - destruct (last_indexed calls None) as [D'|].
    + apply (search_no_descriptions query k w (index_of D'));
        [exact Hi|reflexivity|exact Hd|lia].
    + apply search_uninitialized. exact Hi.
  - rewrite (last_indexed_last_added calls [] None) in Hi
      by (congruence || (rewrite Hlast; discriminate)).
    rewrite Hlast in Hi.
    assert (Hs : search query k w
                 = (inr (map (result_of_hit (s :: D))
                             (Faiss.knn (index_of (s :: D)) k (embedding query))),
                    w)).
    { rewrite (search_hits model_dim model_embed query k w (index_of (s :: D)) Hi);
        rewrite ?Hd; try reflexivity; try discriminate; try lia.
      unfold Faiss.ntotal. cbn. now rewrite length_map. }
    eexists. split; [exact Hs|]. split.
    + rewrite length_map. apply knn_length. lia.
    + apply (f_equal fst) in Hs.
      apply (search_In model_dim model_embed) in Hs. now rewrite Hd in Hs.
Qed.

(** ** The example run *)

Variable format_4f : float32 -> string.

(** X9: whatever the model, the example run of the module ends without an
    exception, with the five scents indexed; it prints the three lines of
    the set-up, the query, the header and exactly two result lines, numbered
    1 and 2, each with a description of the corpus, the distances
    non-negative and in non-decreasing order. *)
Theorem main_runs :
  exists s1 d1 s2 d2,
    main model_dim model_embed format_4f
    = (inr tt,
       {| self := self (after_add_scents scents (init default_model_name));
          stdout :=
            ["Initialized ScentSearch with model: all-MiniLM-L6-v2";
             "Added 5 scents to index";
             "Vector shape: (5, " ++ str_nat model_dim ++ ")";
             String (ascii_of_nat 10) "Search query: 'garlic'";
             "Results:";
             "1. " ++ s1 ++ " (distance: " ++ format_4f d1 ++ ")";
             "2. " ++ s2 ++ " (distance: " ++ format_4f d2 ++ ")"]%string |}) /\
    In s1 scents /\ In s2 scents /\ 0 <= d1 <= d2.
Proof.
  set (w1 := after_add_scents scents (init default_model_name)).
  assert (Hadd : add_scents scents (init default_model_name) = (inr tt, w1)).
  { unfold w1. unfold_after_add_scents.
    now rewrite add_scents_nonempty by discriminate. }
  pose proof (search_built model_dim model_embed scents
                (init default_model_name) "garlic" 2
                ltac:(discriminate) ltac:(lia)) as Hs.
  fold w1 in Hs.
  set (ix := {| Faiss.index_d := model_dim;
                Faiss.index_xb := map embedding scents |}) in Hs.
  pose proof (knn_length ix 2 (embedding "garlic") ltac:(lia)) as Hlen.
  pose proof (knn_sorted ix 2 (embedding "garlic") ltac:(lia)) as Hsorted.
  pose proof (knn_labels ix 2 (embedding "garlic") ltac:(lia)) as Hlab.
  pose proof (search_In model_dim model_embed "garlic" 2 w1) as HIn.
  rewrite Hs in HIn. specialize (HIn _ eq_refl).
  unfold w1 in HIn. rewrite after_add_scents_descriptions in HIn. fold w1 in HIn.
  destruct (Faiss.knn ix 2 (embedding "garlic")) as [|h1 [|h2 [|h3 hits]]];
    try discriminate Hlen.
  cbn [map] in Hs, HIn.
  apply Forall_cons_iff in HIn. destruct HIn as [HIn1 HIn].
  apply Forall_inv in HIn.
  apply StronglySorted_inv in Hsorted. destruct Hsorted as [_ Hle].
  apply Forall_inv, hit_le_fst in Hle.
  apply Forall_inv in Hlab. destruct Hlab as [_ Hpos].
  exists (fst (result_of_hit scents h1)), (fst h1),
         (fst (result_of_hit scents h2)), (fst h2).
  split; [|split; [exact HIn1|split; [exact HIn|lia]]].
  unfold main. unfold bind at 1. rewrite Hadd.
  unfold bind at 1. rewrite Hs.
  unfold w1. unfold_after_add_scents.
  rewrite add_scents_nonempty by discriminate.
  reflexivity.
Qed.

End MoreFacts.

(** ** The further properties on the example corpus *)

Lemma search_distances_ascending_witness :
  scents <> [] /\ 1 <= 7 < Faiss.distance_compute_min_k_reservoir /\
  exists rs,
    search 1 embed_float "garlic" 7
           (after_add_scents 1 embed_float scents (init default_model_name))
    = (inr rs, after_add_scents 1 embed_float scents (init default_model_name)) /\
    StronglySorted Z.le (map snd rs) /\
    Forall (fun r => 0 <= snd r) rs.
Proof.
  split; [discriminate|]. split; [lia|].
  apply (search_distances_ascending 1 embed_float scents
           (init default_model_name) "garlic" 7); [discriminate|lia].
Defined.

Lemma search_prefix_witness :
  scents <> [] /\ 1 <= 2 <= 7 /\ 7 < Faiss.distance_compute_min_k_reservoir /\
  exists rs1 rs2,
    search 1 embed_float "garlic" 2
           (after_add_scents 1 embed_float scents (init default_model_name))
    = (inr rs1, after_add_scents 1 embed_float scents (init default_model_name)) /\
    search 1 embed_float "garlic" 7
           (after_add_scents 1 embed_float scents (init default_model_name))
    = (inr rs2, after_add_scents 1 embed_float scents (init default_model_name)) /\
    rs1 = firstn (Z.to_nat 2) rs2.
Proof.
  split; [discriminate|]. split; [lia|]. split; [lia|].
  apply (search_prefix 1 embed_float scents (init default_model_name)
           "garlic" 2 7); [discriminate|lia|lia].
Defined.

Lemma search_beyond_corpus_witness :
  scents <> [] /\ Z.of_nat (length scents) <= 7 /\
  7 < Faiss.distance_compute_min_k_reservoir /\
  no_overflow 1 embed_float "garlic" scents /\
  exists ranked,
    ranked_results (corpus_hits 1 embed_float "garlic" scents) scents
                   (Z.of_nat (length scents)) ranked /\
    length ranked = length scents /\
    search 1 embed_float "garlic" 7
           (after_add_scents 1 embed_float scents (init default_model_name))
    = (inr (ranked ++ repeat (last scents EmptyString, FLT_MAX)
                             (Z.to_nat 7 - length scents)),
       after_add_scents 1 embed_float scents (init default_model_name)).
Proof.
  split; [discriminate|]. split; [simpl; lia|]. split; [lia|].
  split; [exact example_no_overflow|].
  apply (search_beyond_corpus 1 embed_float scents (init default_model_name)
           "garlic" 7); [discriminate|simpl; lia|lia|exact example_no_overflow].
Defined.

Lemma search_default_nearest_witness :
  scents <> [] /\ no_overflow 1 embed_float "garlic" scents /\
  exists i,
    (i < length scents)%nat /\
    search 1 embed_float "garlic" 1
           (after_add_scents 1 embed_float scents (init default_model_name))
    = (inr [(nth i scents EmptyString,
             distance_to 1 embed_float "garlic" (nth i scents EmptyString))],
       after_add_scents 1 embed_float scents (init default_model_name)) /\
    (forall j, (j < length scents)%nat ->
               distance_to 1 embed_float "garlic" (nth i scents EmptyString)
               <= distance_to 1 embed_float "garlic" (nth j scents EmptyString)) /\
    (forall j, (j < i)%nat ->
               distance_to 1 embed_float "garlic" (nth i scents EmptyString)
               < distance_to 1 embed_float "garlic" (nth j scents EmptyString)).
Proof.
  split; [discriminate|]. split; [exact example_no_overflow|].
  apply (search_default_nearest 1 embed_float scents (init default_model_name)
           "garlic"); [discriminate|exact example_no_overflow].
Defined.

Lemma search_distinct_items_witness :
  scents <> [] /\ 1 <= 3 <= Z.of_nat (length scents) /\
  3 < Faiss.distance_compute_min_k_reservoir /\
  no_overflow 1 embed_float "garlic" scents /\
  exists positions : list nat,
    NoDup positions /\
    length positions = Z.to_nat 3 /\
    Forall (fun i => (i < length scents)%nat) positions /\
    search 1 embed_float "garlic" 3
           (after_add_scents 1 embed_float scents (init default_model_name))
    = (inr (map (fun i => (nth i scents EmptyString,
                           distance_to 1 embed_float "garlic"
                                       (nth i scents EmptyString)))
                positions),
       after_add_scents 1 embed_float scents (init default_model_name)).
Proof.
  split; [discriminate|]. split; [simpl; lia|]. split; [lia|].
  split; [exact example_no_overflow|].
  apply (search_distinct_items 1 embed_float scents (init default_model_name)
           "garlic" 3); [discriminate|simpl; lia|lia|exact example_no_overflow].
Defined.

Lemma search_exact_match_first_witness :
  In "garlic pungent wasabi spicy"%string scents /\
  1 <= 2 < Faiss.distance_compute_min_k_reservoir /\
  distance_to 1 embed_float "garlic pungent wasabi spicy"
              "garlic pungent wasabi spicy" = 0 /\
  (forall s, In s scents ->
             distance_to 1 embed_float "garlic pungent wasabi spicy" s = 0 ->
             s = "garlic pungent wasabi spicy"%string) /\
  exists rest,
    search 1 embed_float "garlic pungent wasabi spicy" 2
           (after_add_scents 1 embed_float scents (init default_model_name))
    = (inr (("garlic pungent wasabi spicy"%string, 0) :: rest),
       after_add_scents 1 embed_float scents (init default_model_name)).
Proof.
  assert (Hin : In "garlic pungent wasabi spicy"%string scents)
    by (simpl; tauto).
  assert (Hself : distance_to 1 embed_float "garlic pungent wasabi spicy"
                              "garlic pungent wasabi spicy" = 0)
    by (vm_compute; reflexivity).
  assert (Huniq : forall s, In s scents ->
                    distance_to 1 embed_float "garlic pungent wasabi spicy" s = 0 ->
                    s = "garlic pungent wasabi spicy"%string).
  { intros s Hs He. simpl in Hs.
    destruct Hs as [<- | [<- | [<- | [<- | [<- | []]]]]];
      solve [reflexivity | vm_compute in He; discriminate He]. }
  split; [exact Hin|]. split; [lia|]. split; [exact Hself|].
  split; [exact Huniq|].
  apply (search_exact_match_first 1 embed_float scents
           (init default_model_name) "garlic pungent wasabi spicy" 2 Hin);
    [lia|exact Hself|exact Huniq].
Defined.

Lemma search_after_calls_witness :
  1 <= 2 < Faiss.distance_compute_min_k_reservoir /\
  search 1 embed_float "garlic" 2
         (after_calls 1 embed_float
            [call_add_scents scents; call_search "garlic" 1; call_add_scents []]
            (init default_model_name))
  = (inl IndexError,
     after_calls 1 embed_float
       [call_add_scents scents; call_search "garlic" 1; call_add_scents []]
       (init default_model_name)).
Proof.
  split; [lia|].
  apply (search_after_calls 1 embed_float default_model_name
           [call_add_scents scents; call_search "garlic" 1; call_add_scents []]
           "garlic" 2).
  lia.
Defined.

(** * Facts on [parse_sensor_data] *)

Ltac step_parse_loop := cbn [parse_loop].
Ltac step_group_outcomes := cbn [group_outcomes].
Ltac unfold_parse_sensor_data := unfold parse_sensor_data.
Ltac unfold_group_outcome := unfold group_outcome.
Ltac unfold_outcome_lists := unfold readings_of, printed_of.

Section ConvertToCsvFacts.

Variable float : Type.
Variable py_float : string -> option float.
Variable py_strip : string -> string.
Variable re_search : string -> string -> option string.

Local Abbreviation parse_loop := (parse_loop float py_float py_strip re_search).
Local Abbreviation parse_sensor_data :=
  (parse_sensor_data float py_float py_strip re_search).
Local Abbreviation group_outcome :=
  (group_outcome float py_float py_strip re_search).
Local Abbreviation group_outcomes :=
  (group_outcomes float py_float py_strip re_search).
Local Abbreviation readings_of := (readings_of float).
Local Abbreviation printed_of := (printed_of float).

Lemma line_at_middle (pre rest : list string) (l : list string) (j : nat)
      (x : string) :
  nth_error l j = Some x ->
  line_at (pre ++ l ++ rest) (length pre + j) = Some x.
Proof.
  intro Hx. unfold line_at.
  assert (Hj : (j < length l)%nat) by (apply nth_error_Some; congruence).
  rewrite (py_getitem_nat _ _ EmptyString)
    by (rewrite !length_app; lia).
  f_equal. rewrite app_nth2_plus, app_nth1 by exact Hj.
  apply nth_error_nth, Hx.
Qed.

Lemma line_at_group (pre rest : list string) (l0 l1 l2 : string) :
  line_at (pre ++ l0 :: l1 :: l2 :: rest) (length pre) = Some l0 /\
  line_at (pre ++ l0 :: l1 :: l2 :: rest) (length pre + 1) = Some l1 /\
  line_at (pre ++ l0 :: l1 :: l2 :: rest) (length pre + 2) = Some l2.
Proof.
  change (l0 :: l1 :: l2 :: rest) with ([l0; l1; l2] ++ rest).
  repeat split.
  - rewrite <- (Nat.add_0_r (length pre)). now apply line_at_middle.
  - now apply line_at_middle.
  - now apply line_at_middle.
Qed.

Lemma readings_of_app (o1 o2 : list (string + reading float)) :
  readings_of (o1 ++ o2) = readings_of o1 ++ readings_of o2.
Proof. apply flat_map_app. Qed.

Lemma printed_of_app (o1 o2 : list (string + reading float)) :
  printed_of (o1 ++ o2) = printed_of o1 ++ printed_of o2.
Proof. apply flat_map_app. Qed.

(** The loop from line [length pre] on, with fuel for what is left. *)
Lemma parse_loop_outcomes (fuel : nat) :
  forall (pre rest : list string) (readings : list (reading float))
         (out : list string),
    (length rest < fuel)%nat ->
    parse_loop fuel (pre ++ rest) (length pre) readings out
    = Some (inr (readings ++ readings_of (group_outcomes rest (length pre))),
            out ++ printed_of (group_outcomes rest (length pre))).
Proof.
  induction fuel as [|fuel IH]; intros pre rest readings out Hfuel; [lia|].
  step_parse_loop. rewrite length_app.
  destruct rest as [|l0 [|l1 [|l2 rest]]].
  1-3: (destruct (_ <? _) eqn:E; [apply Z.ltb_lt in E; simpl in E; lia|];
        simpl; now rewrite !app_nil_r).
  destruct (_ <? _) eqn:E; [|apply Z.ltb_ge in E; simpl in E; lia].
  destruct (line_at_group pre rest l0 l1 l2) as [H0 [H1 H2]].
  rewrite H0, H1, H2. cbv zeta.
  assert (Hnext : forall readings' out',
             parse_loop fuel (pre ++ l0 :: l1 :: l2 :: rest) (length pre + 3)
                        readings' out'
             = Some (inr (readings'
                          ++ readings_of (group_outcomes rest (length pre + 3))),
                     out' ++ printed_of (group_outcomes rest (length pre + 3)))).
  { intros readings' out'.
    specialize (IH (pre ++ [l0; l1; l2]) rest readings' out').
    rewrite <- app_assoc, length_app in IH. apply IH. simpl in Hfuel. lia. }
  step_group_outcomes. unfold_group_outcome. unfold_outcome_lists.
  destruct (re_search gas_pattern (py_strip l0)) as [g|];
    [destruct (re_search temp_pattern (py_strip l1)) as [t|];
     [destruct (re_search humidity_pattern (py_strip l2)) as [h|];
      [destruct (convert float py_float g t h) as [ve|r]|]|]|];
    rewrite Hnext; cbn [flat_map app]; now rewrite <- ?app_assoc.
Qed.

(** The result of the function on lines that could be read. *)
Lemma parse_sensor_data_outcomes_eq (file_path : string) (lines : list string) :
  parse_sensor_data file_path (inr lines)
  = Some (readings_of (group_outcomes lines 0),
          printed_of (group_outcomes lines 0)
          ++ [("Found " ++ str_nat (length (readings_of (group_outcomes lines 0)))
               ++ " readings in " ++ file_path)%string]).
Proof.
  unfold_parse_sensor_data.
  pose proof (parse_loop_outcomes (S (length lines)) [] lines [] []
                ltac:(lia)) as H.
  cbn [app length] in H. rewrite H. reflexivity.
Qed.

(** X10: for every list of lines, the loop ends within its fuel and without
    an exception (no index leaves the list); the readings returned are those
    of the complete groups of three lines, in order, every other complete
    group gives one printed line, and the last line printed reports the
    number of readings. *)
Theorem parse_sensor_data_outcomes (file_path : string) (lines : list string) :
  parse_sensor_data file_path (inr lines)
  = Some (readings_of (group_outcomes lines 0),
          printed_of (group_outcomes lines 0)
          ++ [("Found " ++ str_nat (length (readings_of (group_outcomes lines 0)))
               ++ " readings in " ++ file_path)%string]).
Proof. apply parse_sensor_data_outcomes_eq. Qed.

Lemma list_ind3 {A} (P : list A -> Prop) :
  P [] -> (forall a, P [a]) -> (forall a b, P [a; b]) ->
  (forall a b c l, P l -> P (a :: b :: c :: l)) ->
  forall l, P l.
Proof.
  intros H0 H1 H2 H3.
  assert (H : forall l, P l /\ (forall a, P (a :: l))
                        /\ (forall a b, P (a :: b :: l))).
  { induction l as [|x l [IH0 [IH1 IH2]]].
    - repeat split; auto.
    - repeat split; auto. }
  intro l. apply H.
Qed.

Lemma group_outcomes_length (lines : list string) :
  forall i, length (group_outcomes lines i) = (length lines / 3)%nat.
Proof.
  induction lines as [| | |l0 l1 l2 lines IH] using list_ind3; intro i;
    try reflexivity.
  step_group_outcomes. cbn [length]. rewrite IH.
  change (S (S (S (length lines)))) with (1 * 3 + length lines)%nat.
  now rewrite Nat.div_add_l by discriminate.
Qed.

Lemma outcomes_accounting (outcomes : list (string + reading float)) :
  (length (readings_of outcomes) + length (printed_of outcomes))%nat
  = length outcomes.
Proof.
  unfold_outcome_lists.
  induction outcomes as [|[line|r] outcomes IH]; simpl; lia.
Qed.

Lemma group_outcomes_app (l1 l2 : list string) :
  forall i, (length l1 mod 3 = 0)%nat ->
    group_outcomes (l1 ++ l2) i
    = group_outcomes l1 i ++ group_outcomes l2 (i + length l1).
Proof.
  induction l1 as [| | |a b c l1 IH] using list_ind3; intros i Hmod;
    try discriminate Hmod.
  - simpl. now rewrite Nat.add_0_r.
  - cbn [app]. step_group_outcomes. cbn [app]. f_equal.
    rewrite IH.
    + f_equal. f_equal. simpl. lia.
    + cbn [length] in Hmod.
      replace (S (S (S (length l1)))) with (length l1 + 1 * 3)%nat in Hmod by lia.
      now rewrite Nat.Div0.mod_add in Hmod.
Qed.

Lemma group_outcomes_short (extra : list string) (i : nat) :
  (length extra < 3)%nat -> group_outcomes extra i = [].
Proof.
  destruct extra as [|a [|b [|c extra]]]; simpl; try reflexivity. lia.
Qed.

(** The readings of a list of lines do not depend on the number its first
    line has in the file. *)
Lemma readings_of_shift (lines : list string) :
  forall i j, readings_of (group_outcomes lines i)
              = readings_of (group_outcomes lines j).
Proof.
  induction lines as [| | |l0 l1 l2 lines IH] using list_ind3; intros i j;
    try reflexivity.
  step_group_outcomes.
  change (readings_of ([group_outcome i l0 l1 l2]
                       ++ group_outcomes lines (i + 3))
          = readings_of ([group_outcome j l0 l1 l2]
                         ++ group_outcomes lines (j + 3))).
  rewrite !readings_of_app, (IH (i + 3)%nat (j + 3)%nat). f_equal.
  unfold_group_outcome. unfold_outcome_lists.
  destruct (re_search gas_pattern (py_strip l0)) as [g|];
    [destruct (re_search temp_pattern (py_strip l1)) as [t|];
     [destruct (re_search humidity_pattern (py_strip l2)) as [h|];
      [destruct (convert float py_float g t h) as [ve|r]|]|]|];
    reflexivity.
Qed.

(** X11: every complete group of three lines gives either one reading or one
    printed line, and nothing else is printed but the closing line: the
    readings and the printed lines together number [len(lines) // 3 + 1]. *)
Theorem parse_sensor_data_accounting (file_path : string) (lines : list string) :
  exists readings out,
    parse_sensor_data file_path (inr lines) = Some (readings, out) /\
    (length readings + length out = length lines / 3 + 1)%nat.
Proof.
  do 2 eexists. split; [apply parse_sensor_data_outcomes_eq|].
  rewrite length_app. cbn [length].
  pose proof (outcomes_accounting (group_outcomes lines 0)) as H.
  rewrite group_outcomes_length in H. lia.
Qed.

(** X12: when the first part of a file is a whole number of groups, the
    readings of the file are the readings of the first part followed by the
    readings of the rest. *)
Theorem parse_sensor_data_app (file_path : string) (l1 l2 : list string) :
  (length l1 mod 3 = 0)%nat ->
  exists r1 o1 r2 o2 o,
    parse_sensor_data file_path (inr l1) = Some (r1, o1) /\
    parse_sensor_data file_path (inr l2) = Some (r2, o2) /\
    parse_sensor_data file_path (inr (l1 ++ l2)) = Some (r1 ++ r2, o).
Proof.
  intro Hmod. do 5 eexists.
  split; [apply parse_sensor_data_outcomes_eq|].
  split; [apply parse_sensor_data_outcomes_eq|].
  rewrite parse_sensor_data_outcomes_eq.
  rewrite (group_outcomes_app l1 l2 0 Hmod), readings_of_app.
  rewrite (readings_of_shift l2 (0 + length l1) 0).
  reflexivity.
Qed.

(** X13: one or two lines after the last complete group are dropped without
    a trace: the readings and every printed line are those of the file
    without them.  In particular a file of fewer than three lines gives no
    reading and only the closing line. *)
Theorem parse_sensor_data_trailing (file_path : string)
        (lines extra : list string) :
  (length lines mod 3 = 0)%nat -> (length extra < 3)%nat ->
  parse_sensor_data file_path (inr (lines ++ extra))
  = parse_sensor_data file_path (inr lines).
Proof.
  intros Hmod Hextra. rewrite !parse_sensor_data_outcomes_eq.
  rewrite (group_outcomes_app lines extra 0 Hmod).
  rewrite (group_outcomes_short extra _ Hextra), app_nil_r. reflexivity.
Qed.

End ConvertToCsvFacts.

(** ** [parse_sensor_data] on a small log *)

Lemma parse_sensor_data_app_witness :
  (length ["Gas Resistance: 1.5"; "Temperature: 20"; "Humidity: 40"]%string
   mod 3 = 0)%nat /\
  exists r1 o1 r2 o2 o,
    parse_sensor_data Z (fun s => Some (Z.of_nat (String.length s)))
                      (fun s => s) (fun _ s => Some s) "lavender.txt"
      (inr ["Gas Resistance: 1.5"; "Temperature: 20"; "Humidity: 40"]%string)
    = Some (r1, o1) /\
    parse_sensor_data Z (fun s => Some (Z.of_nat (String.length s)))
                      (fun s => s) (fun _ s => Some s) "lavender.txt"
      (inr ["Gas Resistance: 2"; "Temperature: 21"; "Humidity: 41"; "Gas"]%string)
    = Some (r2, o2) /\
    parse_sensor_data Z (fun s => Some (Z.of_nat (String.length s)))
                      (fun s => s) (fun _ s => Some s) "lavender.txt"
      (inr (app ["Gas Resistance: 1.5"; "Temperature: 20"; "Humidity: 40"]%string
                ["Gas Resistance: 2"; "Temperature: 21"; "Humidity: 41"; "Gas"]%string))
    = Some (r1 ++ r2, o).
Proof.
  split; [reflexivity|].
  apply (parse_sensor_data_app Z (fun s => Some (Z.of_nat (String.length s)))
           (fun s => s) (fun _ s => Some s) "lavender.txt"
           ["Gas Resistance: 1.5"; "Temperature: 20"; "Humidity: 40"]%string
           ["Gas Resistance: 2"; "Temperature: 21"; "Humidity: 41"; "Gas"]%string).
  reflexivity.
Defined.

Lemma parse_sensor_data_trailing_witness :
  (length ["Gas Resistance: 1.5"; "Temperature: 20"; "Humidity: 40"]%string
   mod 3 = 0)%nat /\
  (length ["Gas Resistance: 2"; "Temperature: 21"]%string < 3)%nat /\
  parse_sensor_data Z (fun s => Some (Z.of_nat (String.length s)))
                    (fun s => s) (fun _ s => Some s) "lavender.txt"
    (inr (app ["Gas Resistance: 1.5"; "Temperature: 20"; "Humidity: 40"]%string
              ["Gas Resistance: 2"; "Temperature: 21"]%string))
  = parse_sensor_data Z (fun s => Some (Z.of_nat (String.length s)))
                      (fun s => s) (fun _ s => Some s) "lavender.txt"
      (inr ["Gas Resistance: 1.5"; "Temperature: 20"; "Humidity: 40"]%string).
Proof.
  split; [reflexivity|]. split; [simpl; lia|].
  apply (parse_sensor_data_trailing Z
           (fun s => Some (Z.of_nat (String.length s)))
           (fun s => s) (fun _ s => Some s) "lavender.txt"
           ["Gas Resistance: 1.5"; "Temperature: 20"; "Humidity: 40"]%string
           ["Gas Resistance: 2"; "Temperature: 21"]%string);
    [reflexivity|simpl; lia].
Defined.
